(** * cogent3.draw.drawable: layout domains, figure state and shape geometry

    A shallow embedding of [src/cogent3/draw/drawable.py].

    Conventions of the embedding.
    - Python [int] is [Z]; Python [float] is read as the rational it denotes
      ([Q], exact arithmetic): a decimal literal such as [0.01] is [1 # 100].
      Equality of computed numbers is therefore [Qeq] ([==]). Statements over
      [Q] are kept to what rounding does not change: errors, the structure of
      the arrays, orderings, and equalities between two evaluations of the
      same expression.
    - Where rounding decides a property (the extent of a reversed arrow
      head), the code is embedded a second time over IEEE 754 binary64
      numbers, the primitive type [float] (module [Float64]).
    - A raising computation is a value of [result]: [Ok v] or [Raise e].
    - [None] entries of coordinate lists are [None : option Q].
    - Python lists that the code mutates in place are objects of a store
      (section [Store]); everything else is a value. *)

From Stdlib Require Import ZArith QArith Qabs Qround Lqa Lia String Ascii List.
From Stdlib Require PrimFloat.
From stdpp Require Import base option list gmap strings.

Local Open Scope Z_scope.

(** ** Exceptions and the error monad *)

Module Py.

Inductive exn : Type :=
| ValueError (msg : string)
| IndexError
| TypeError
| AttributeError
| ZeroDivisionError
| Exception_ (msg : string).

Inductive result (A : Type) : Type :=
| Ok (a : A)
| Raise (e : exn).
Arguments Ok {A} a.
Arguments Raise {A} e.

Definition bind {A B} (m : result A) (k : A -> result B) : result B :=
  match m with
  | Ok a => k a
  | Raise e => Raise e
  end.

#[global] Instance result_ret : MRet result := @Ok.
#[global] Instance result_bind : MBind result := fun A B k m => bind m k.
#[global] Instance result_fmap : FMap result :=
  fun A B f m => bind m (fun a => Ok (f a)).

Definition is_ok {A} (m : result A) : bool :=
  match m with Ok _ => true | Raise _ => false end.

(** [l[i]] with Python's negative indices and its [IndexError]. *)
Definition index {A} (l : list A) (i : Z) : result A :=
  let n := Z.of_nat (length l) in
  let j := if i <? 0 then i + n else i in
  if (j <? 0) || (n <=? j) then Raise IndexError
  else match l !! Z.to_nat j with
       | Some a => Ok a
       | None => Raise IndexError
       end.

(** [range(n)] and [range(a, b)]. *)
Definition range (n : Z) : list Z := map Z.of_nat (seq 0 (Z.to_nat n)).
Definition range2 (a b : Z) : list Z := map (fun i => a + Z.of_nat i) (seq 0 (Z.to_nat (b - a))).

(** A list comprehension whose element expression may raise. *)
Fixpoint comprehension {A B} (f : A -> result B) (l : list A) : result (list B) :=
  match l with
  | [] => Ok []
  | a :: l' => b ← f a; bs ← comprehension f l'; Ok (b :: bs)
  end.

(** A [for] loop over [l] threading the loop state [s]. *)
Fixpoint for_ {A S} (l : list A) (body : A -> S -> result S) (s : S) : result S :=
  match l with
  | [] => Ok s
  | a :: l' => s' ← body a s; for_ l' body s'
  end.

(** The builtins [min(a, b)], [max(a, b)] and [abs] on numbers: [min] and
    [max] return their first argument unless the second is strictly
    smaller (larger). *)
Definition lt_bool (a b : Q) : bool := negb (Qle_bool b a).
Definition min (a b : Q) : Q := if lt_bool b a then b else a.
Definition max (a b : Q) : Q := if lt_bool a b then b else a.
Definition abs (a : Q) : Q := Qabs a.

(** [int(x)] on a float: truncation towards zero. *)
Definition int (x : Q) : Z := Z.quot (Qnum x) (Z.pos (Qden x)).

(** [str.lower()], on the ASCII letters. Strings are byte strings (UTF-8):
    bytes above 127 are left alone. *)
Definition lower_ascii (c : ascii) : ascii :=
  let n := nat_of_ascii c in
  if ((65 <=? n)%nat && (n <=? 90)%nat)%bool then ascii_of_nat (n + 32) else c.

Fixpoint lower (s : string) : string :=
  match s with
  | EmptyString => EmptyString
  | String c s' => String (lower_ascii c) (lower s')
  end.

End Py.
Import Py.

(** ** [get_domain] *)

(** The message of the [ValueError] of [get_domain] is the f-string
    ["{element} index too big for {total}"]; the embedding keeps its fixed
    part. *)
Definition index_too_big : exn := ValueError "index too big".

Definition get_domain (total element : Z) (is_y : bool) (space : Q)
  : result (Q * Q) :=
  if total =? 1 then Ok (0%Q, 1%Q)
  else if element >? total - 1 then Raise index_too_big
  else if total =? 0 then Raise ZeroDivisionError
  else
    let per_element := (1 / inject_Z total)%Q in
    let space := Py.min (space / 2)%Q (per_element / 10)%Q in
    let bounds := map (fun i => (per_element * inject_Z i)%Q) (range (total + 1)) in
    domains ← comprehension
      (fun k => lo ← index bounds k;
                hi ← index bounds (k + 1);
                Ok ((lo + space)%Q, (hi - space)%Q))
      (range (Z.of_nat (length bounds) - 1));
    let element := if is_y then total - element - 1 else element in
    index domains element.

(** The default of the [space] parameter. *)
Definition default_space : Q := 1 # 100.


(** ** Shapes *)

(** The numpy reductions [a.max()] and [a.min()]: they raise [ValueError]
    on an array without elements. *)
Definition np_max (a : list Q) : result Q :=
  match a with
  | [] => Raise (ValueError "zero-size array to reduction operation maximum")
  | v :: a' => Ok (fold_left Py.max a' v)
  end.

Definition np_min (a : list Q) : result Q :=
  match a with
  | [] => Raise (ValueError "zero-size array to reduction operation minimum")
  | v :: a' => Ok (fold_left Py.min a' v)
  end.

Inductive klass : Type := Rectangle | Diamond | Arrow | Point.

#[global] Instance klass_eq_dec : EqDecision klass.
Proof. solve_decision. Defined.

(** The keyword arguments of [Shape.__init__], with its defaults. *)
Record shape_kwargs : Type := {
  kw_name : option string;
  kw_text : option string;
  kw_filled : bool;
  kw_legendgroup : option string;
  kw_showlegend : bool;
  kw_hoverinfo : option string;
  kw_fillcolor : option string
}.

Definition shape_defaults : shape_kwargs :=
  {| kw_name := None; kw_text := None; kw_filled := true;
     kw_legendgroup := None; kw_showlegend := true; kw_hoverinfo := None;
     kw_fillcolor := None |}.

(** A shape object: the attributes set by [Shape.__init__] and by the
    constructor of its class. [_size] and [_symbol] exist on a [Point] only. *)
Record Shape : Type := {
  class_of : klass;
  x : list (option Q);
  y : list (option Q);
  filled : bool;
  fillcolor : option string;
  _legendgroup : option string;
  _showlegend : bool;
  name : option string;
  text : option string;
  _hoverinfo : option string;
  _size : option Z;
  _symbol : option string
}.

(** [a or b] on optional strings: the empty string is falsy too. *)
Definition or_str (a b : option string) : option string :=
  match a with
  | None | Some EmptyString => b
  | Some _ => a
  end.

Definition Shape_init (k : klass) (kw : shape_kwargs) (xs ys : list (option Q))
    (size : option Z) (symbol : option string) : Shape :=
  {| class_of := k; x := xs; y := ys;
     filled := kw_filled kw; fillcolor := kw_fillcolor kw;
     _legendgroup := kw_legendgroup kw; _showlegend := kw_showlegend kw;
     name := kw_name kw; text := kw_text kw;
     _hoverinfo := or_str (kw_hoverinfo kw) (kw_name kw);
     _size := size; _symbol := symbol |}.

(** A coordinate list is a list of [(start, end)] spans. *)
Definition span : Type := (Q * Q)%type.

Definition span_width (c : span) : Q := Py.abs (c.1 - c.2).
Definition span_x (c : span) : Q := Py.min c.1 c.2.

(** The polygons that the constructors append to [xs] and [ys]. *)
Definition rect_xs (x_coord width : Q) : list (option Q) :=
  [Some x_coord; Some x_coord; Some (x_coord + width)%Q;
   Some (x_coord + width)%Q; Some x_coord].
Definition rect_ys (y height : Q) : list (option Q) :=
  [Some y; Some (y + height)%Q; Some (y + height)%Q; Some y; Some y].

Definition diamond_xs (x_coord width : Q) : list (option Q) :=
  [Some x_coord; Some (x_coord + width / 2)%Q; Some (x_coord + width)%Q;
   Some (x_coord + width / 2)%Q; Some x_coord].
Definition diamond_ys (y hh : Q) : list (option Q) :=
  [Some y; Some (y + hh)%Q; Some y; Some (y - hh)%Q; Some y].

Definition link_xs (a b : Q) : list (option Q) := [None; Some a; Some b; None].
Definition link_ys (v : Q) : list (option Q) := [None; Some v; Some v; None].

Definition Rectangle_init (coords : list span) (y height : Q) (kw : shape_kwargs)
  : result Shape :=
  c0 ← index coords 0;
  let xs := rect_xs (span_x c0) (span_width c0) in
  let ys := rect_ys y height in
  '(xs, ys) ← for_ (range2 1 (Z.of_nat (length coords)))
    (fun i '(xs, ys) =>
       cp ← index coords (i - 1);
       ci ← index coords i;
       let xs := xs ++ link_xs cp.2 ci.1 in
       let ys := ys ++ link_ys (y + height / 2)%Q in
       Ok (xs ++ rect_xs (span_x ci) (span_width ci), ys ++ rect_ys y height))
    (xs, ys);
  Ok (Shape_init Rectangle kw xs ys None None).

Definition Diamond_init (coords : list span) (y height : Q) (kw : shape_kwargs)
  : result Shape :=
  c0 ← index coords 0;
  let hh := (height / 2)%Q in
  let xs := diamond_xs (span_x c0) (span_width c0) in
  let ys := diamond_ys y hh in
  '(xs, ys) ← for_ (range2 1 (Z.of_nat (length coords)))
    (fun i '(xs, ys) =>
       cp ← index coords (i - 1);
       ci ← index coords i;
       let xs := xs ++ link_xs cp.2 ci.1 in
       let ys := ys ++ link_ys y in
       Ok (xs ++ diamond_xs (span_x ci) (span_width ci), ys ++ diamond_ys y hh))
    (xs, ys);
  Ok (Shape_init Diamond kw xs ys None None).

(** The arrow head, before the [reverse] flag is looked at. *)
Definition arrow_x (x_coord width hw : Q) : list Q :=
  [x_coord; x_coord + width - hw; x_coord + width - hw; x_coord + width;
   x_coord + width - hw; x_coord + width - hw; x_coord; x_coord]%Q.
Definition arrow_y (y height hh : Q) : list Q :=
  [y; y; y - hh; y + height / 2; y + height + hh; y + height; y + height; y]%Q.

(** [numpy.flip(arrow_x.max() - arrow_x + arrow_x.min())] *)
Definition flip_mirror (a : list Q) : result (list Q) :=
  hi ← np_max a;
  lo ← np_min a;
  Ok (rev (map (fun v => (hi - v + lo)%Q) a)).

Definition Arrow_init (coords : list span) (y height arrow_head_w : Q)
    (reverse : bool) (kw : shape_kwargs) : result Shape :=
  '(xs, ys) ← for_ (range (Z.of_nat (length coords) - 1))
    (fun i '(xs, ys) =>
       ci ← index coords i;
       let xs := xs ++ rect_xs (span_x ci) (span_width ci) in
       let ys := ys ++ rect_ys y height in
       cn ← index coords (i + 1);
       Ok (xs ++ link_xs ci.2 cn.1, ys ++ link_ys (y + height / 2)%Q))
    ([], []);
  cl ← index coords (-1);
  let width := span_width cl in
  let x_coord := span_x cl in
  let hh := (height * arrow_head_w * 2)%Q in
  let hw := (width * arrow_head_w * 2)%Q in
  let arrow_x := arrow_x x_coord width hw in
  let arrow_y := arrow_y y height hh in
  '(xs, ys) ←
    (if negb reverse then Ok (xs ++ map Some arrow_x, ys ++ map Some arrow_y)
     else
       mx ← flip_mirror arrow_x;
       Ok (xs ++ map Some mx, ys ++ map Some (rev arrow_y)));
  Ok (Shape_init Arrow kw xs ys None None).

Definition Point_init (x y : Q) (size : Z) (symbol : string) (kw : shape_kwargs)
  : Shape :=
  Shape_init Point kw [Some x] [Some y] (Some size) (Some symbol).

(** Defaults of the constructors' own parameters. *)
Definition default_y : Q := 0.
Definition default_height : Q := 1 # 4.
Definition default_arrow_head_w : Q := 1 # 10.


(** ** The arrow in binary64

    [Arrow.__init__] once more, on the numbers that the interpreter computes
    with: a Python [float] and an entry of a numpy array of floats are
    binary64 numbers, and [+], [-], [*], [/] round their result. An [int]
    among the arguments is read as the float of the same value. What the
    constructor leaves in [self.x] and [self.y] is returned as a pair. *)

Module Float64.
Import PrimFloat.
#[local] Set Warnings "-inexact-float".

Definition span : Type := (float * float).

(** The builtin [min(a, b)]: the second argument when it is the smaller. *)
Definition min (a b : float) : float := if (b <? a)%float then b else a.

(** [numpy.maximum] and [numpy.minimum] of two numbers, through which
    [a.max()] and [a.min()] reduce an array: a NaN is handed on. *)
Definition maximum (a b : float) : float :=
  if is_nan a then a else if is_nan b then b
  else if (a <? b)%float then b else a.
Definition minimum (a b : float) : float :=
  if is_nan a then a else if is_nan b then b
  else if (b <? a)%float then b else a.

Definition np_max (a : list float) : result float :=
  match a with
  | [] => Raise (ValueError "zero-size array to reduction operation maximum")
  | v :: a' => Ok (fold_left maximum a' v)
  end.
Definition np_min (a : list float) : result float :=
  match a with
  | [] => Raise (ValueError "zero-size array to reduction operation minimum")
  | v :: a' => Ok (fold_left minimum a' v)
  end.

(** [abs(c[0] - c[1])] and [min(c[0], c[1])] *)
Definition span_width (c : span) : float := abs (c.1 - c.2)%float.
Definition span_x (c : span) : float := min c.1 c.2.

Definition rect_xs (x_coord width : float) : list (option float) :=
  [Some x_coord; Some x_coord; Some (x_coord + width)%float;
   Some (x_coord + width)%float; Some x_coord].
Definition rect_ys (y height : float) : list (option float) :=
  [Some y; Some (y + height)%float; Some (y + height)%float; Some y; Some y].
Definition link_xs (a b : float) : list (option float) :=
  [None; Some a; Some b; None].
Definition link_ys (v : float) : list (option float) :=
  [None; Some v; Some v; None].

Definition arrow_x (x_coord width hw : float) : list float :=
  [x_coord; x_coord + width - hw; x_coord + width - hw; x_coord + width;
   x_coord + width - hw; x_coord + width - hw; x_coord; x_coord]%float.
Definition arrow_y (y height hh : float) : list float :=
  [y; y; y - hh; y + height / 2; y + height + hh; y + height; y + height; y]%float.

(** [numpy.flip(arrow_x.max() - arrow_x + arrow_x.min())]: the difference is
    rounded, then the sum. *)
Definition mirror (hi lo : float) (a : list float) : list float :=
  rev (map (fun v => (hi - v + lo)%float) a).

Definition flip_mirror (a : list float) : result (list float) :=
  hi ← np_max a;
  lo ← np_min a;
  Ok (mirror hi lo a).

Definition Arrow_init (coords : list span) (y height arrow_head_w : float)
    (reverse : bool) : result (list (option float) * list (option float)) :=
  '(xs, ys) ← for_ (range (Z.of_nat (length coords) - 1))
    (fun i '(xs, ys) =>
       ci ← index coords i;
       let xs := xs ++ rect_xs (span_x ci) (span_width ci) in
       let ys := ys ++ rect_ys y height in
       cn ← index coords (i + 1);
       Ok (xs ++ link_xs ci.2 cn.1, ys ++ link_ys (y + height / 2)%float))
    ([], []);
  cl ← index coords (-1);
  let width := span_width cl in
  let x_coord := span_x cl in
  let hh := (height * arrow_head_w * 2)%float in
  let hw := (width * arrow_head_w * 2)%float in
  let arrow_x := arrow_x x_coord width hw in
  let arrow_y := arrow_y y height hh in
  if negb reverse then Ok (xs ++ map Some arrow_x, ys ++ map Some arrow_y)
  else
    mx ← flip_mirror arrow_x;
    Ok (xs ++ map Some mx, ys ++ map Some (rev arrow_y)).


(** The defaults of [y] and [height], and an arrow on the one span
    [(0, 0.9)] whose head is wider than the span: [arrow_head_w = 1.1]. *)
Definition default_y : float := 0%float.
Definition default_height : float := 0.25%float.

End Float64.

(** ** [_MakeShape] *)

(** What [make_shape] reads of a feature (an [_Annotatable], whose class is
    not part of this module): [type_.map.useful], [type_.name],
    [type_.map.get_coordinates()], [type_.map.get_covering_span().reverse]
    and [type_.type]. *)
Record Annotatable : Type := {
  map_useful : bool;
  feature_name : option string;
  map_coordinates : list span;
  covering_span_reverse : bool;
  feature_type : option string
}.

(** The [type_] argument: [None] (its default), a string or a feature. *)
Inductive type_arg : Type :=
| TyNone
| TyStr (s : string)
| TyFeature (f : Annotatable).

(** The [**kwargs] of [make_shape], forwarded to the constructor: the
    geometry keywords that a constructor of this module can take. *)
Record make_kwargs : Type := {
  mk_y : option Q;
  mk_height : option Q;
  mk_arrow_head_w : option Q
}.

Definition no_kwargs : make_kwargs :=
  {| mk_y := None; mk_height := None; mk_arrow_head_w := None |}.

Definition _colors : gmap string string :=
  list_to_map
    [("cds", "rgba(0,0,150,0.5)"); ("exon", "rgba(0,0,100,0.5)");
     ("gene", "rgba(0,0,150,0.5)"); ("transcript", "rgba(0,0,200,0.5)");
     ("snp", "rgba(200,0,0,0.5)"); ("snv", "rgba(200,0,0,0.5)")].

Definition _shapes : gmap string klass :=
  list_to_map
    [("cds", Arrow); ("exon", Arrow); ("transcript", Arrow); ("gene", Arrow);
     ("repeat", Rectangle); ("snp", Point); ("snv", Point);
     ("variation", Diamond)].

(** [coords[...]] when [coords] may be [None]: [None] is not subscriptable. *)
Definition subscript (coords : option (list span)) (i : Z) : result span :=
  match coords with
  | None => Raise TypeError
  | Some cs => index cs i
  end.

(** [type_.lower()]: [None] has no such attribute. *)
Definition type_lower (type_ : option string) : result string :=
  match type_ with
  | None => Raise AttributeError
  | Some t => Ok (lower t)
  end.

(** The call [klass(name=..., coords=coords, ..., **kwargs)] for a class other
    than [Point]: a keyword the constructor does not have is a [TypeError],
    raised before its body runs. *)
Definition call_klass (k : klass) (coords : list span) (reverse : option bool)
    (kwargs : make_kwargs) (kw : shape_kwargs) : result Shape :=
  let y := default default_y (mk_y kwargs) in
  let height := default default_height (mk_height kwargs) in
  match k with
  | Arrow =>
      Arrow_init coords y height
        (default default_arrow_head_w (mk_arrow_head_w kwargs))
        (default false reverse) kw
  | Rectangle =>
      match mk_arrow_head_w kwargs, reverse with
      | None, None => Rectangle_init coords y height kw
      | _, _ => Raise TypeError
      end
  | Diamond =>
      match mk_arrow_head_w kwargs, reverse with
      | None, None => Diamond_init coords y height kw
      | _, _ => Raise TypeError
      end
  | Point => Raise TypeError
  end.

(** The statements of [__call__] after the branch on [isinstance]. *)
Definition make_shape_build (type_ name : option string)
    (coords : option (list span)) (reverse : bool) (kwargs : make_kwargs)
  : result Shape :=
  t ← type_lower type_;
  let klass := default Rectangle (_shapes !! t) in
  let color := _colors !! t in
  let reverse_kw :=
    if bool_decide (klass ≠ Arrow) then None else Some reverse in
  let kw :=
    {| kw_name := type_; kw_text := name; kw_filled := true;
       kw_legendgroup := type_; kw_showlegend := true; kw_hoverinfo := None;
       kw_fillcolor := color |} in
  if bool_decide (klass ≠ Point) then
    match coords with
    | Some cs => call_klass klass cs reverse_kw kwargs kw
    | None => Raise TypeError
    end
  else
    c0 ← subscript coords 0;
    cl ← subscript coords (-1);
    match mk_y kwargs, mk_height kwargs, mk_arrow_head_w kwargs with
    | None, None, None => Ok (Point_init (Py.min c0.1 cl.2) 1 14 "square" kw)
    | _, _, _ => Raise TypeError
    end.

Definition make_shape (type_ : type_arg) (name : option string)
    (coords : option (list span)) (kwargs : make_kwargs)
  : result (option Shape) :=
  match type_ with
  | TyFeature f =>
      if negb (map_useful f) then Ok None
      else
        Some <$> make_shape_build (feature_type f) (feature_name f)
                   (Some (map_coordinates f)) (covering_span_reverse f) kwargs
  | _ =>
      let type_ := match type_ with TyStr s => Some s | _ => None end in
      c0 ← subscript coords 0;
      cl ← subscript coords (-1);
      let reverse := if lt_bool cl.2 c0.1 then true else false in
      _ ← (match coords with
           | None => Raise (Exception_ "No coordinates defined")
           | Some _ => Ok ()
           end);
      Some <$> make_shape_build type_ name coords reverse kwargs
  end.


(** ** Dictionaries: traces, layouts, figures *)

(** Leaves of the dictionaries: [None], booleans, numbers, strings and
    sequences of numbers and [None] (coordinates, domains, ranges). *)
Inductive pyval : Type :=
| VNone
| VBool (b : bool)
| VNum (q : Q)
| VStr (s : string)
| VSeq (l : list (option Q)).

(** A value under a key of a trace or of an axis: a leaf or a mapping of
    leaves ([line=dict(color=...)], [title=dict(text=...)]). *)
Inductive val1 : Type :=
| V1 (v : pyval)
| D1 (d : gmap string pyval).

(** A value under a key of a layout: a leaf or a mapping such as an axis. *)
Inductive val2 : Type :=
| V2 (v : pyval)
| D2 (d : gmap string val1).

Abbreviation trace := (gmap string val1).
Abbreviation axis := (gmap string val1).
Abbreviation layout := (gmap string val2).

#[global] Instance Q_eq_dec : EqDecision Q.
Proof. solve_decision. Defined.
#[global] Instance pyval_eq_dec : EqDecision pyval.
Proof. solve_decision. Defined.
#[global] Instance val1_eq_dec : EqDecision val1.
Proof. solve_decision. Defined.

(** Modelled from the spec: [UnionDict] (cogent3.util.union_dict), the
    "generic key-merging dictionary container used for layout
    configuration", is not part of this module. [a |= b] writes every key of
    [b] into [a]; where both hold a mapping under a key the two are merged
    key by key, otherwise the value of [b] replaces the one of [a]. Its
    entries are read and written as attributes; reading an absent one is an
    [AttributeError]. *)
Definition union0 (a b : gmap string pyval) : gmap string pyval := b ∪ a.

Definition union1 (a b : gmap string val1) : gmap string val1 :=
  merge (fun va vb =>
           match va, vb with
           | Some (D1 da), Some (D1 db) => Some (D1 (union0 da db))
           | _, Some v => Some v
           | _, None => va
           end) a b.

Definition union2 (a b : layout) : layout :=
  merge (fun va vb =>
           match va, vb with
           | Some (D2 da), Some (D2 db) => Some (D2 (union1 da db))
           | _, Some v => Some v
           | _, None => va
           end) a b.

(** [layout.<k>], read as a mapping. *)
Definition get_axis (l : layout) (k : string) : result axis :=
  match l !! k with
  | Some (D2 d) => Ok d
  | _ => Raise AttributeError
  end.

(** [layout.<k> |= d] *)
Definition axis_ior (l : layout) (k : string) (d : axis) : result layout :=
  match l !! k with
  | Some (D2 a) => Ok (<[k := D2 (union1 a d)]> l)
  | Some (V2 _) => Raise TypeError
  | None => Raise AttributeError
  end.

(** [layout.<k>.<f> = v] *)
Definition axis_set (l : layout) (k f : string) (v : val1) : result layout :=
  a ← get_axis l k;
  Ok (<[k := D2 (<[f := v]> a)]> l).

(** Reading the attribute [f] of a trace. *)
Definition trace_attr (tr : trace) (f : string) : result val1 :=
  match tr !! f with
  | Some v => Ok v
  | None => Raise AttributeError
  end.

(** What a figure holds under its keys. *)
Inductive figval : Type :=
| FData (traces : list trace)
| FLayout (l : layout).

Abbreviation figure_dict := (gmap string figval).

(** [UnionDict(data=traces, layout=layout)] *)
Definition UnionDict_figure (traces : list trace) (l : layout) : figure_dict :=
  {[ "data" := FData traces; "layout" := FLayout l ]}.

Definition fig_data (f : figure_dict) : result (list trace) :=
  match f !! "data" with
  | Some (FData t) => Ok t
  | _ => Raise AttributeError
  end.

Definition fig_layout (f : figure_dict) : result layout :=
  match f !! "layout" with
  | Some (FLayout l) => Ok l
  | _ => Raise AttributeError
  end.

(** ** [Drawable] *)

Record Drawable : Type := {
  _traces : list trace;
  d_layout : layout;
  xtitle : option string;
  ytitle : option string
}.

Definition set_traces (t : list trace) (d : Drawable) : Drawable :=
  {| _traces := t; d_layout := d_layout d; xtitle := xtitle d; ytitle := ytitle d |}.
Definition set_layout (l : layout) (d : Drawable) : Drawable :=
  {| _traces := _traces d; d_layout := l; xtitle := xtitle d; ytitle := ytitle d |}.

Definition traces (d : Drawable) : list trace := _traces d.

Definition num_or_None (v : option Q) : val2 :=
  match v with
  | None => V2 VNone
  | Some q => V2 (VNum q)
  end.

(** [title if title is None else dict(text=title)] *)
Definition title_or_None (title : option string) : val2 :=
  match title with
  | None => V2 VNone
  | Some t => D2 {[ "text" := V1 (VStr t) ]}
  end.

Definition visible (visible_axes : bool) : val2 :=
  D2 {[ "visible" := V1 (VBool visible_axes) ]}.

(** [Drawable.__init__]. Of the attributes it sets, the record keeps those
    that the methods below read. *)
Definition Drawable_init (title : option string) (traces : option (list trace))
    (width height : option Q) (showlegend visible_axes : bool)
    (layout : option layout) (xtitle ytitle : option string) : Drawable :=
  let _traces := match traces with Some (t :: ts) => t :: ts | _ => [] end in
  let _default_layout : gmap string val2 :=
    list_to_map
      [("font", D2 (list_to_map [("family", V1 (VStr "Balto"));
                                 ("size", V1 (VNum 14))]));
       ("autosize", V2 (VBool false));
       ("hovermode", V2 (VStr "closest"));
       ("template", V2 VNone);
       ("plot_bgcolor", V2 VNone);
       ("margin", D2 (list_to_map [("l", V1 (VNum 50)); ("r", V1 (VNum 50));
                                   ("t", V1 (VNum 50)); ("b", V1 (VNum 50));
                                   ("pad", V1 (VNum 4))]));
       ("xaxis", visible visible_axes);
       ("yaxis", visible visible_axes);
       ("title", title_or_None title);
       ("width", num_or_None width);
       ("height", num_or_None height);
       ("showlegend", V2 (VBool showlegend))] in
  let layout := default ∅ layout in
  let l := union2 _default_layout layout in
  let overrides : gmap string val2 :=
    list_to_map
      [("title", title_or_None title);
       ("width", num_or_None width);
       ("height", num_or_None height);
       ("showlegend", V2 (VBool showlegend));
       ("xaxis", visible visible_axes);
       ("yaxis", visible visible_axes)] in
  let l := union2 l overrides in
  {| _traces := _traces; d_layout := l; xtitle := xtitle; ytitle := ytitle |}.

(** [Drawable()], every parameter at its default. *)
Definition Drawable_default : Drawable :=
  Drawable_init None None None None true true None None None.

Definition get_trace_titles (d : Drawable) : result (list val1) :=
  comprehension (fun tr => trace_attr tr "name") (traces d).

(** A title is [None] or a string; as a dictionary value: *)
Definition title_val (title : option string) : val1 :=
  match title with
  | None => V1 VNone
  | Some t => V1 (VStr t)
  end.

(** [titles.index(title)]: the first position whose element equals [title],
    or a [ValueError]. *)
Fixpoint list_index (titles : list val1) (title : option string) : result Z :=
  match titles with
  | [] => Raise (ValueError "is not in list")
  | t :: rest =>
      if bool_decide (t = title_val title) then Ok 0
      else i ← list_index rest title; Ok (i + 1)
  end.

(** [l.pop(index)] for an index in range. *)
Definition list_pop {A} (l : list A) (i : Z) : result (A * list A) :=
  a ← index l i;
  Ok (a, delete (Z.to_nat (if i <? 0 then i + Z.of_nat (length l) else i)) l).

(** What a call leaves behind: the value returned, the drawable afterwards
    and the warnings issued on the way. *)
Record outcome (A : Type) : Type := {
  returned : A;
  after : Drawable;
  warned : list string
}.
Arguments returned {A} o.
Arguments after {A} o.
Arguments warned {A} o.

(** [pop_trace]: in the handler of the [ValueError] a [UserWarning] object is
    built and dropped; nothing is passed to [warnings.warn]. *)
Definition pop_trace (title : option string) (d : Drawable) : result (outcome (option trace)) :=
  titles ← get_trace_titles d;
  match list_index titles title with
  | Raise (ValueError _) =>
      Ok {| returned := None; after := d; warned := [] |}
  | Raise e => Raise e
  | Ok i =>
      '(tr, rest) ← list_pop (traces d) i;
      Ok {| returned := Some tr; after := set_traces rest d; warned := [] |}
  end.

Definition add_trace (tr : trace) (d : Drawable) : Drawable :=
  set_traces (traces d ++ [tr]) d.

(** The [figure] property. [build] is the [_build_fig] method when the object
    has one ([hasattr(self, "_build_fig")]); the class [Drawable] itself has
    none, its subclasses do. *)
Definition axis_title (own : option string) (a : axis) : val1 :=
  match own with
  | Some (String c s) => V1 (VStr (String c s))
  | _ => default (V1 VNone) (a !! "title")
  end.

(** [self.traces if self.traces else [{}]] *)
Definition displayed (traces : list trace) : list trace :=
  match traces with
  | [] => [∅]
  | _ => traces
  end.

Definition figure (build : option (Drawable -> result Drawable)) (d : Drawable)
  : result (figure_dict * Drawable) :=
  d ← (match traces d, build with
       | [], Some build_fig => build_fig d
       | _, _ => Ok d
       end);
  let traces := displayed (traces d) in
  xa ← get_axis (d_layout d) "xaxis";
  let xtitle := axis_title (xtitle d) xa in
  ya ← get_axis (d_layout d) "yaxis";
  let ytitle := axis_title (ytitle d) ya in
  l ← axis_set (d_layout d) "xaxis" "title" xtitle;
  l ← axis_set l "yaxis" "title" ytitle;
  Ok (UnionDict_figure traces l, set_layout l d).

(** ** [AnnotatedDrawable] *)

Definition _ticks_off : axis :=
  list_to_map
    [("showticklabels", V1 (VBool false)); ("mirror", V1 (VBool true));
     ("showgrid", V1 (VBool false)); ("showline", V1 (VBool true));
     ("ticks", V1 (VStr ""))].

Definition _ticks_on : axis :=
  list_to_map
    [("showticklabels", V1 (VBool true)); ("mirror", V1 (VBool true));
     ("showgrid", V1 (VBool false)); ("showline", V1 (VBool true))].

(** The state of an [AnnotatedDrawable]: the inherited part [ad_base], its
    own attributes, the core drawable with its [_build_fig] when it has one,
    and the two tracks. *)
Record AnnotatedDrawable : Type := {
  ad_base : Drawable;
  xrange : pyval;
  yrange : pyval;
  _overlaying : bool;
  core : Drawable;
  core_build : option (Drawable -> result Drawable);
  left_track : option Drawable;
  bottom_track : option Drawable
}.

Definition with_base (b : Drawable) (s : AnnotatedDrawable) : AnnotatedDrawable :=
  {| ad_base := b; xrange := xrange s; yrange := yrange s;
     _overlaying := _overlaying s; core := core s; core_build := core_build s;
     left_track := left_track s; bottom_track := bottom_track s |}.
Definition with_overlaying (o : bool) (s : AnnotatedDrawable) : AnnotatedDrawable :=
  {| ad_base := ad_base s; xrange := xrange s; yrange := yrange s;
     _overlaying := o; core := core s; core_build := core_build s;
     left_track := left_track s; bottom_track := bottom_track s |}.
Definition with_core (c : Drawable) (s : AnnotatedDrawable) : AnnotatedDrawable :=
  {| ad_base := ad_base s; xrange := xrange s; yrange := yrange s;
     _overlaying := _overlaying s; core := c; core_build := core_build s;
     left_track := left_track s; bottom_track := bottom_track s |}.
Definition with_tracks (l b : option Drawable) (s : AnnotatedDrawable)
  : AnnotatedDrawable :=
  {| ad_base := ad_base s; xrange := xrange s; yrange := yrange s;
     _overlaying := _overlaying s; core := core s; core_build := core_build s;
     left_track := l; bottom_track := b |}.

(** [self.layout.yaxis2.overlaying != "free"] inside [try ... except
    AttributeError: pass]. *)
Definition overlaying_set (l : layout) : bool :=
  match l !! "yaxis2" with
  | Some (D2 a) =>
      match a !! "overlaying" with
      | Some v => bool_decide (v ≠ V1 (VStr "free"))
      | None => false
      end
  | _ => false
  end.

(** [_build_fig]. The figure [f] of the core is a [UnionDict] with the keys
    [data] and [layout], so [f.traces] raises the [AttributeError] and the
    handler runs. The traces of a drawable are [UnionDict]s, as [as_trace]
    makes them, and they are the objects of the core: what the loop writes
    into them is seen through the core too. For a core without traces the
    data of [f] is the placeholder [[{}]], whose [{}] is a plain [dict]:
    [trace.xaxis = xaxis] raises an [AttributeError] on it. *)
Definition _build_fig (xaxis yaxis : string) (self : AnnotatedDrawable)
  : result (figure_dict * AnnotatedDrawable) :=
  '(f, core1) ← figure (core_build self) (core self);
  let overlaying :=
    if overlaying_set (d_layout (ad_base self)) then true else _overlaying self in
  traces ← fig_data f;
  fl ← fig_layout f;
  let layout := union2 (d_layout (ad_base self)) fl in
  traces ← (match _traces core1 with
            | [] => Raise AttributeError
            | _ =>
                Ok (map (fun tr : trace =>
                           let tr := <["xaxis" := V1 (VStr xaxis)]> tr in
                           if overlaying && bool_decide (is_Some (tr !! "yaxis"))
                           then <["yaxis" := V1 (VStr "y3")]> tr
                           else <["yaxis" := V1 (VStr yaxis)]> tr) traces)
            end);
  let core2 := set_traces traces core1 in
  fl ← axis_set fl "xaxis" "title" (title_val (xtitle (ad_base self)));
  fl ← axis_set fl "yaxis" "title" (title_val (ytitle (ad_base self)));
  fl ← axis_ior fl "xaxis" _ticks_on;
  fl ← axis_ior fl "yaxis" _ticks_on;
  let base := set_traces traces (set_layout layout (ad_base self)) in
  Ok (UnionDict_figure traces fl,
      with_core (set_layout fl core2)
        (with_overlaying overlaying (with_base base self))).

(** [numpy.array(trace.<f>, dtype=float)], then the maximum of the entries
    that are not NaN ([None] becomes NaN). *)
Definition trace_coords (tr : trace) (f : string) : result (list (option Q)) :=
  v ← trace_attr tr f;
  match v with
  | V1 (VSeq l) => Ok l
  | _ => Raise TypeError
  end.

Definition not_nan (a : list (option Q)) : list Q := omap id a.

(** The state of a track loop: [seen_types], the running maximum and the
    traces collected. *)
Definition track_state : Type := (list pyval * Q * list trace)%type.

Definition track_step (f : string) (pre : trace -> trace) (tr : trace)
    (st : track_state) : result track_state :=
  let '(seen_types, max_v, traces) := st in
  let tr := pre tr in
  a ← trace_coords tr f;
  m ← np_max (not_nan a);
  let max_v := Py.max m max_v in
  g ← trace_attr tr "legendgroup";
  match g with
  | D1 _ => Raise TypeError
  | V1 g =>
      let tr :=
        if bool_decide (g ∈ seen_types)
        then <["showlegend" := V1 (VBool false)]> tr else tr in
      Ok (g :: seen_types, max_v, traces ++ [tr])
  end.

(** [self.<track>.traces] *)
Definition track_traces (t : option Drawable) : result (list trace) :=
  match t with
  | None => Raise AttributeError
  | Some d => Ok (traces d)
  end.

(** [list(layout.<k>.domain)] with its entry 1 scaled by [prop]. *)
Definition scaled_domain (l : layout) (k : string) (prop : Q)
  : result (list (option Q)) :=
  a ← get_axis l k;
  d ← trace_attr a "domain";
  match d with
  | V1 (VSeq dom) =>
      hi ← index dom 1;
      match hi with
      | Some hi => Ok (<[1%nat := Some (prop * hi)%Q]> dom)
      | None => Raise TypeError
      end
  | _ => Raise TypeError
  end.

Definition seq_at1 (dom : list (option Q)) : result Q :=
  hi ← index dom 1;
  match hi with
  | Some hi => Ok hi
  | None => Raise TypeError
  end.

Definition domain_val (lo hi : Q) : val1 := V1 (VSeq [Some lo; Some hi]).

Definition layout_2x2 : layout :=
  list_to_map
    [("xaxis", D2 (list_to_map [("anchor", V1 (VStr "y"));
                                ("domain", domain_val 0 (99 # 1000))]));
     ("xaxis2", D2 (list_to_map [("anchor", V1 (VStr "y2"));
                                 ("domain", domain_val (109 # 1000) 1)]));
     ("xaxis3", D2 (list_to_map [("anchor", V1 (VStr "y3"));
                                 ("domain", domain_val (109 # 1000) 1)]));
     ("yaxis", D2 (list_to_map [("anchor", V1 (VStr "x"));
                                ("domain", domain_val (109 # 1000) 1)]));
     ("yaxis2", D2 (list_to_map [("anchor", V1 (VStr "x2"));
                                 ("domain", domain_val (109 # 1000) 1)]));
     ("yaxis3", D2 (list_to_map [("anchor", V1 (VStr "x3"));
                                 ("domain", domain_val 0 (99 # 1000))]))].

Definition range_val (hi : Z) : val1 := V1 (VSeq [Some 0%Q; Some (inject_Z hi)]).
Definition title_text (t : option string) : val1 :=
  D1 {[ "text" := match t with None => VNone | Some t => VStr t end ]}.

Definition _build_2x2_fig (self : AnnotatedDrawable)
  : result (figure_dict * AnnotatedDrawable) :=
  self ← (match traces (ad_base self) with
          | [] => snd <$> _build_fig "x2" "y2" self
          | _ => Ok self
          end);
  let layout := union2 layout_2x2 (d_layout (ad_base self)) in
  let data := traces (ad_base self) in
  layout ← axis_ior layout "xaxis2" (<["range" := V1 (xrange self)]> _ticks_off);
  layout ← axis_ior layout "yaxis2" (<["range" := V1 (yrange self)]> _ticks_off);
  (* left_track traces *)
  lt ← track_traces (left_track self);
  '(seen_types, max_x, ltraces) ← for_ lt (track_step "x" id) ([], 0%Q, []);
  let left_range := Py.int max_x + 1 in
  (* bottom_track traces *)
  bt ← track_traces (bottom_track self);
  '(_, max_y, traces) ← for_ bt
    (track_step "y" (fun tr => <["yaxis" := V1 (VStr "y3")]>
                                 (<["xaxis" := V1 (VStr "x3")]> tr)))
    (seen_types, 0%Q, ltraces);
  let bottom_range := Py.int max_y + 1 in
  let data := data ++ traces in
  layout ← axis_ior layout "yaxis"
    (<["title" := title_text (ytitle (ad_base self))]>
       (<["range" := V1 (yrange self)]> _ticks_on));
  layout ← axis_ior layout "xaxis3"
    (<["title" := title_text (xtitle (ad_base self))]>
       (<["range" := V1 (xrange self)]> _ticks_on));
  (* adjust row width of left plot for number of feature tracks *)
  let min_range := Z.min left_range bottom_range in
  if min_range =? 0 then Raise ZeroDivisionError else
  let left_prop := (inject_Z left_range / inject_Z min_range)%Q in
  xaxis_domain ← scaled_domain layout "xaxis" left_prop;
  layout ← axis_ior layout "xaxis"
    (<["title" := V1 VNone]> (<["range" := range_val left_range]>
       (<["domain" := V1 (VSeq xaxis_domain)]> _ticks_off)));
  layout ← axis_ior layout "xaxis"
    (<["title" := D1 ∅]> (<["range" := range_val left_range]>
       (<["domain" := V1 (VSeq xaxis_domain)]> _ticks_off)));
  let space := (1 # 100)%Q in
  x1 ← seq_at1 xaxis_domain;
  layout ← axis_set layout "xaxis2" "domain" (domain_val (x1 + space) 1);
  layout ← axis_set layout "xaxis3" "domain" (domain_val (x1 + space) 1);
  (* now the right column *)
  let bottom_prop := (inject_Z bottom_range / inject_Z min_range)%Q in
  yaxis_domain ← scaled_domain layout "yaxis3" bottom_prop;
  layout ← axis_ior layout "yaxis3"
    (<["title" := D1 ∅]> (<["range" := range_val bottom_range]>
       (<["domain" := V1 (VSeq yaxis_domain)]> _ticks_off)));
  y1 ← seq_at1 yaxis_domain;
  layout ← axis_set layout "yaxis" "domain" (domain_val (y1 + space) 1);
  layout ← axis_set layout "yaxis2" "domain" (domain_val (y1 + space) 1);
  let n_left := length ltraces in
  let left' := set_traces (take n_left traces) <$> left_track self in
  let bottom' := set_traces (drop n_left traces) <$> bottom_track self in
  Ok (UnionDict_figure data layout, with_tracks left' bottom' self).

(** ** The constructors on a store

    [xs] and [ys] are Python lists that the constructors extend in place
    ([xs += ...]), and [coords] is a list of the caller. Here the constructors
    are run on a store of such objects: a list is a location, [+=] rewrites
    the object at that location, and [numpy.array(xs)] copies its contents
    into the new shape. *)

Module Store.

Abbreviation loc := positive.

Inductive obj : Type :=
| OSpans (cs : list span)
| OList (l : list (option Q)).

Abbreviation store := (gmap loc obj).

(** A computation on the store; the store is kept when it raises. *)
Definition M (A : Type) : Type := store -> result A * store.

Definition ret {A} (a : A) : M A := fun s => (Ok a, s).

Definition bind {A B} (m : M A) (k : A -> M B) : M B :=
  fun s =>
    match m s with
    | (Ok a, s') => k a s'
    | (Raise e, s') => (Raise e, s')
    end.

Definition lift {A} (r : result A) : M A := fun s => (r, s).

#[global] Instance M_ret : MRet M := @ret.
#[global] Instance M_bind : MBind M := fun A B k m => bind m k.

(** [xs = [...]]: a new list object. *)
Definition new_list (l : list (option Q)) : M loc :=
  fun s => let p := fresh (dom s) in (Ok p, <[p := OList l]> s).

(** [xs += l] *)
Definition extend (p : loc) (l : list (option Q)) : M unit :=
  fun s =>
    match s !! p with
    | Some (OList l0) => (Ok (), <[p := OList (l0 ++ l)]> s)
    | _ => (Raise TypeError, s)
    end.

(** [numpy.array(xs)] *)
Definition np_array (p : loc) : M (list (option Q)) :=
  fun s =>
    match s !! p with
    | Some (OList l) => (Ok l, s)
    | _ => (Raise TypeError, s)
    end.

Definition spans (c : loc) : M (list span) :=
  fun s =>
    match s !! c with
    | Some (OSpans cs) => (Ok cs, s)
    | _ => (Raise TypeError, s)
    end.

(** [coords[i]] and [len(coords)] *)
Definition item (c : loc) (i : Z) : M span :=
  cs ← spans c; lift (index cs i).
Definition len (c : loc) : M Z :=
  cs ← spans c; ret (Z.of_nat (length cs)).

Fixpoint for_each {A} (l : list A) (body : A -> M unit) : M unit :=
  match l with
  | [] => ret ()
  | a :: l' => body a;; for_each l' body
  end.

Definition Rectangle_new (coords : loc) (y height : Q) (kw : shape_kwargs)
  : M Shape :=
  c0 ← item coords 0;
  xs ← new_list (rect_xs (span_x c0) (span_width c0));
  ys ← new_list (rect_ys y height);
  n ← len coords;
  for_each (range2 1 n)
    (fun i =>
       cp ← item coords (i - 1);
       ci ← item coords i;
       extend xs (link_xs cp.2 ci.1);;
       extend ys (link_ys (y + height / 2)%Q);;
       extend xs (rect_xs (span_x ci) (span_width ci));;
       extend ys (rect_ys y height));;
  ax ← np_array xs;
  ay ← np_array ys;
  ret (Shape_init Rectangle kw ax ay None None).

Definition Diamond_new (coords : loc) (y height : Q) (kw : shape_kwargs)
  : M Shape :=
  c0 ← item coords 0;
  let hh := (height / 2)%Q in
  xs ← new_list (diamond_xs (span_x c0) (span_width c0));
  ys ← new_list (diamond_ys y hh);
  n ← len coords;
  for_each (range2 1 n)
    (fun i =>
       cp ← item coords (i - 1);
       ci ← item coords i;
       extend xs (link_xs cp.2 ci.1);;
       extend ys (link_ys y);;
       extend xs (diamond_xs (span_x ci) (span_width ci));;
       extend ys (diamond_ys y hh));;
  ax ← np_array xs;
  ay ← np_array ys;
  ret (Shape_init Diamond kw ax ay None None).

Definition Arrow_new (coords : loc) (y height arrow_head_w : Q)
    (reverse : bool) (kw : shape_kwargs) : M Shape :=
  xs ← new_list [];
  ys ← new_list [];
  n ← len coords;
  for_each (range (n - 1))
    (fun i =>
       ci ← item coords i;
       extend xs (rect_xs (span_x ci) (span_width ci));;
       extend ys (rect_ys y height);;
       cn ← item coords (i + 1);
       extend xs (link_xs ci.2 cn.1);;
       extend ys (link_ys (y + height / 2)%Q));;
  cl ← item coords (-1);
  let width := span_width cl in
  let x_coord := span_x cl in
  let hh := (height * arrow_head_w * 2)%Q in
  let hw := (width * arrow_head_w * 2)%Q in
  let arrow_x := arrow_x x_coord width hw in
  let arrow_y := arrow_y y height hh in
  (if negb reverse then
     extend xs (map Some arrow_x);;
     extend ys (map Some arrow_y)
   else
     mx ← lift (flip_mirror arrow_x);
     extend xs (map Some mx);;
     extend ys (map Some (rev arrow_y)));;
  ax ← np_array xs;
  ay ← np_array ys;
  ret (Shape_init Arrow kw ax ay None None).

Definition Point_new (x y : Q) (size : Z) (symbol : string) (kw : shape_kwargs)
  : M Shape :=
  ret (Point_init x y size symbol kw).

(** A call of one of the four constructors. *)
Inductive call : Type :=
| NewRectangle (coords : loc) (y height : Q) (kw : shape_kwargs)
| NewDiamond (coords : loc) (y height : Q) (kw : shape_kwargs)
| NewArrow (coords : loc) (y height arrow_head_w : Q) (reverse : bool)
    (kw : shape_kwargs)
| NewPoint (x y : Q) (size : Z) (symbol : string) (kw : shape_kwargs).

Definition construct (c : call) : M Shape :=
  match c with
  | NewRectangle coords y height kw => Rectangle_new coords y height kw
  | NewDiamond coords y height kw => Diamond_new coords y height kw
  | NewArrow coords y height w reverse kw => Arrow_new coords y height w reverse kw
  | NewPoint x y size symbol kw => Point_new x y size symbol kw
  end.

(** The arguments of a call as values: a coordinate list is what the store
    holds at its location. *)
Inductive call_value : Type :=
| RectangleOf (cs : list span) (y height : Q) (kw : shape_kwargs)
| DiamondOf (cs : list span) (y height : Q) (kw : shape_kwargs)
| ArrowOf (cs : list span) (y height arrow_head_w : Q) (reverse : bool)
    (kw : shape_kwargs)
| PointOf (x y : Q) (size : Z) (symbol : string) (kw : shape_kwargs).

Definition spans_at (s : store) (c : loc) : option (list span) :=
  match s !! c with
  | Some (OSpans cs) => Some cs
  | _ => None
  end.

Definition arguments (s : store) (c : call) : option call_value :=
  match c with
  | NewRectangle coords y height kw =>
      cs ← spans_at s coords; Some (RectangleOf cs y height kw)
  | NewDiamond coords y height kw =>
      cs ← spans_at s coords; Some (DiamondOf cs y height kw)
  | NewArrow coords y height w reverse kw =>
      cs ← spans_at s coords; Some (ArrowOf cs y height w reverse kw)
  | NewPoint x y size symbol kw => Some (PointOf x y size symbol kw)
  end.

(** The constructors on values, as in section Shapes. *)
Definition construct_value (v : call_value) : result Shape :=
  match v with
  | RectangleOf cs y height kw => Rectangle_init cs y height kw
  | DiamondOf cs y height kw => Diamond_init cs y height kw
  | ArrowOf cs y height w reverse kw => Arrow_init cs y height w reverse kw
  | PointOf x y size symbol kw => Ok (Point_init x y size symbol kw)
  end.

(** Notions for the statements about the store. *)

(** The objects of [s0] are untouched in [s], where the new lists at [xs] and
    [ys] hold [ax] and [ay]. *)
Definition building (s0 : store) (xs ys : loc) (acc : list (option Q) * list (option Q))
    (s : store) : Prop :=
  s0 ⊆ s /\ s0 !! xs = None /\ s0 !! ys = None /\ xs <> ys /\
  s !! xs = Some (OList acc.1) /\ s !! ys = Some (OList acc.2).

(** The outcome [out] of a loop on the store against the outcome [r] of the
    loop on values: the same result, the accumulators related by [R]; when
    the loop raises, the objects of [s0] are still untouched. *)
Definition follows {S} (s0 : store) (R : S -> store -> Prop)
    (r : result S) (out : result () * store) : Prop :=
  match r with
  | Ok acc => out.1 = Ok () /\ R acc out.2
  | Raise e => out.1 = Raise e /\ s0 ⊆ out.2
  end.

End Store.


(** ** Notions used in the statements *)

(** [get_domain] in closed form: the share of one element, the margin kept at
    each end of it, and the domain of element [k] counted from 0. *)
Definition per_element (total : Z) : Q := (1 / inject_Z total)%Q.
Definition half_space (total : Z) (space : Q) : Q :=
  Py.min (space / 2)%Q (per_element total / 10)%Q.
Definition domain_of (total k : Z) (space : Q) : Q * Q :=
  ((per_element total * inject_Z k + half_space total space)%Q,
   (per_element total * inject_Z (k + 1) - half_space total space)%Q).








(** The coordinates of the traces of a track along [f] ("x" or "y"), the
    [None] entries left out. *)
Definition track_values (f : string) (ts : list trace) : list Q :=
  flat_map (fun tr => match trace_coords tr f with
                      | Ok a => not_nan a
                      | Raise _ => []
                      end) ts.

(** The extent of a track: the first integer above the largest of 0 and its
    coordinates. *)
Definition extent_of (values : list Q) (e : Z) : Prop :=
  exists m, m ∈ 0%Q :: values /\
            (forall v, v ∈ 0%Q :: values -> (v <= m)%Q) /\
            (inject_Z e - 1 <= m)%Q /\ (m < inject_Z e)%Q.

(** Examples: two coordinate lists in two stores, and an annotated drawable
    with a core trace, two traces on its left track and one below. *)
Definition two_spans : list span := [(1, 3); (7, 5)]%Q.
Definition store_a : gmap positive Store.obj :=
  {[ 5%positive := Store.OSpans two_spans ]}.
Definition store_b : gmap positive Store.obj :=
  {[ 2%positive := Store.OSpans two_spans; 3%positive := Store.OList [None] ]}.

Definition example_trace (g : string) (xs ys : list (option Q)) : trace :=
  list_to_map [("name", V1 (VStr g)); ("legendgroup", V1 (VStr g));
               ("x", V1 (VSeq xs)); ("y", V1 (VSeq ys));
               ("showlegend", V1 (VBool true))].

Definition example_annotated : AnnotatedDrawable :=
  {| ad_base := Drawable_init None None (Some 500%Q) (Some 500%Q) true true
                  None (Some "X") None;
     xrange := VNone;
     yrange := VSeq [Some 0%Q; Some 10%Q];
     _overlaying := false;
     core := add_trace (example_trace "core" [Some 1%Q] [Some 2%Q]) Drawable_default;
     core_build := None;
     left_track :=
       Some (add_trace (example_trace "gene" [Some 1%Q] [Some 1%Q])
               (add_trace (example_trace "gene" [Some 1%Q; None; Some (5 # 2)%Q]
                             [Some 2%Q; None; Some 3%Q]) Drawable_default));
     bottom_track :=
       Some (add_trace (example_trace "cds" [Some 1%Q; None; Some (5 # 2)%Q]
                          [Some (1 # 2)%Q; None; Some (1 # 3)%Q]) Drawable_default) |}.



(** A trace that has a name and nothing else. *)
Definition named_trace (n : string) : trace := {[ "name" := V1 (VStr n) ]}.

(** [add_trace] called on each trace of [ts] in turn. *)
Definition add_traces (ts : list trace) (d : Drawable) : Drawable :=
  fold_left (fun d tr => add_trace tr d) ts d.

(** ** Methods of [Shape] and [Drawable.remove_traces] *)

(** [numpy.max(self.y[self.y != None])] and its [min] twin. *)
Definition top (sh : Shape) : result Q := np_max (not_nan (y sh)).
Definition bottom (sh : Shape) : result Q := np_min (not_nan (y sh)).

Definition str_or_None (s : option string) : pyval :=
  match s with
  | None => VNone
  | Some s => VStr s
  end.

(** [_mode] is "lines", and "markers" on a [Point]. *)
Definition _mode (sh : Shape) : string :=
  match class_of sh with
  | Point => "markers"
  | _ => "lines"
  end.

Definition as_trace (name_arg : option string) (sh : Shape) : gmap string val1 :=
  let name_ := or_str name_arg (name sh) in
  list_to_map
    [("type", V1 (VStr "scatter"));
     ("x", V1 (VSeq (x sh)));
     ("y", V1 (VSeq (y sh)));
     ("mode", V1 (VStr (_mode sh)));
     ("fill", V1 (VStr "toself"));
     ("fillcolor", V1 (str_or_None (fillcolor sh)));
     ("line", D1 {[ "color" := str_or_None (fillcolor sh) ]});
     ("text", V1 (str_or_None (text sh)));
     ("name", V1 (str_or_None name_));
     ("legendgroup", V1 (str_or_None (_legendgroup sh)));
     ("showlegend", V1 (VBool (_showlegend sh)));
     ("hoverinfo", V1 (VStr "text"))].

(** The [names] argument of [remove_traces]: one string or several names. *)
Inductive names_arg : Type :=
| OneName (s : string)
| Names (l : list (option string)).

(** [remove_traces]. [build] is the [_build_fig] method of the object, if it
    has one; without it [self._build_fig()] is an [AttributeError]. *)
Definition remove_traces (build : option (Drawable -> result Drawable))
    (names : names_arg) (d : Drawable) : result Drawable :=
  d ← (match traces d with
       | [] => match build with
               | Some build_fig => build_fig d
               | None => Raise AttributeError
               end
       | _ => Ok d
       end);
  let names := match names with OneName s => [Some s] | Names l => l end in
  for_ names (fun name d => o ← pop_trace name d; Ok (after o)) d.

(** Where a coordinate list has its [None] entries. *)
Definition gaps (a : list (option Q)) : list bool :=
  map (fun v => match v with None => true | Some _ => false end) a.

(** The attributes that a constructor takes over from its keywords. *)
Definition labelled (kw : shape_kwargs) (sh : Shape) : Prop :=
  name sh = kw_name kw /\ text sh = kw_text kw /\
  _legendgroup sh = kw_legendgroup kw /\ fillcolor sh = kw_fillcolor kw.

(** ** The other layouts of [AnnotatedDrawable] *)

(** [self.layout.<k>], whatever it holds. *)
Definition layout_attr (l : gmap string val2) (k : string) : result val2 :=
  match l !! k with
  | Some v => Ok v
  | None => Raise AttributeError
  end.

Definition layout_2x1 : gmap string val2 :=
  list_to_map
    [("xaxis", D2 (list_to_map [("anchor", V1 (VStr "y2"));
                                ("domain", domain_val 0 1)]));
     ("yaxis", D2 (list_to_map [("anchor", V1 (VStr "free"));
                                ("domain", domain_val (1135 # 10000) 1);
                                ("position", V1 (VNum 0))]));
     ("yaxis2", D2 (list_to_map [("anchor", V1 (VStr "x"));
                                 ("domain", domain_val 0 (985 # 10000))]))].

Definition layout_1x2 : gmap string val2 :=
  list_to_map
    [("xaxis", D2 (list_to_map [("anchor", V1 (VStr "y"));
                                ("domain", domain_val 0 (99 # 1000))]));
     ("xaxis2", D2 (list_to_map [("anchor", V1 (VStr "free"));
                                 ("domain", domain_val (109 # 1000) 1);
                                 ("position", V1 (VNum 0))]));
     ("yaxis", D2 (list_to_map [("anchor", V1 (VStr "x"));
                                ("domain", domain_val 0 1)]))].

(** The three statements under [if self._overlaying:] in [_build_2x1_fig]. *)
Definition overlay_layout (l : gmap string val2) : result (gmap string val2) :=
  y2 ← layout_attr l "yaxis2";
  let l := <["yaxis3" := y2]> l in
  let l := <["yaxis2" := D2 ∅]> l in
  axis_set l "legend" "x" (V1 (VNum (13 # 10))).

Definition _build_2x1_fig (self : AnnotatedDrawable)
  : result (gmap string figval * AnnotatedDrawable) :=
  self ← (match traces (ad_base self) with
          | [] => snd <$> _build_fig "x" "y" self
          | _ => Ok self
          end);
  let layout := layout_2x1 in
  own ← (if _overlaying self then overlay_layout (d_layout (ad_base self))
         else Ok (d_layout (ad_base self)));
  let self := with_base (set_layout own (ad_base self)) self in
  let layout := union2 layout own in
  let data := traces (ad_base self) in
  layout ← axis_ior layout "xaxis"
    (<["title" := title_text (xtitle (ad_base self))]>
       (<["range" := V1 (xrange self)]> _ticks_on));
  layout ← axis_ior layout "yaxis"
    (<["title" := title_text (ytitle (ad_base self))]>
       (<["range" := V1 (yrange self)]> _ticks_on));
  (* bottom traces *)
  bt ← track_traces (bottom_track self);
  '(_, max_y, traces) ← for_ bt
    (track_step "y" (fun tr => <["xaxis" := V1 (VStr "x")]>
                                 (<["yaxis" := V1 (VStr "y2")]> tr)))
    ([], 0%Q, []);
  let data := data ++ traces in
  layout ← axis_ior layout "yaxis2"
    (<["title" := D1 ∅]> (<["range" := range_val (Py.int max_y + 1)]> _ticks_off));
  Ok (UnionDict_figure data layout,
      with_tracks (left_track self) (set_traces traces <$> bottom_track self) self).

Definition _build_1x2_fig (self : AnnotatedDrawable)
  : result (gmap string figval * AnnotatedDrawable) :=
  self ← (match traces (ad_base self) with
          | [] => snd <$> _build_fig "x2" "y" self
          | _ => Ok self
          end);
  let layout := union2 layout_1x2 (d_layout (ad_base self)) in
  let data := traces (ad_base self) in
  layout ← axis_ior layout "xaxis2"
    (<["title" := title_val (xtitle (ad_base self))]>
       (<["range" := V1 (xrange self)]> _ticks_on));
  layout ← axis_ior layout "yaxis"
    (<["title" := title_val (ytitle (ad_base self))]>
       (<["range" := V1 (yrange self)]> _ticks_on));
  (* left track *)
  lt ← track_traces (left_track self);
  '(_, max_x, traces) ← for_ lt
    (track_step "x" (fun tr => <["yaxis" := V1 (VStr "y")]> tr))
    ([], 0%Q, []);
  let data := data ++ traces in
  layout ← axis_ior layout "xaxis"
    (<["title" := V1 VNone]> (<["range" := range_val (Py.int max_x + 1)]> _ticks_off));
  Ok (UnionDict_figure data layout,
      with_tracks (set_traces traces <$> left_track self) (bottom_track self) self).

(** The [figure] property of [AnnotatedDrawable]. A track is an object or
    [None]; an object is truthy. *)
Definition AnnotatedDrawable_figure (self : AnnotatedDrawable)
  : result (gmap string figval * AnnotatedDrawable) :=
  match bottom_track self, left_track self with
  | Some _, Some _ => _build_2x2_fig self
  | Some _, None => _build_2x1_fig self
  | None, Some _ => _build_1x2_fig self
  | None, None => _build_fig "x" "y" self
  end.

Definition remove_track (left bottom : bool) (self : AnnotatedDrawable)
  : AnnotatedDrawable :=
  let self := if left then with_tracks None (bottom_track self) self else self in
  let self := if bottom then with_tracks (left_track self) None self else self in
  if left || bottom
  then with_base (set_traces [] (ad_base self))
         (with_core (set_traces [] (core self)) self)
  else self.

(** The shape that [make_shape] returns for a gene of two spans. *)
Definition example_gene : Shape :=
  Eval vm_compute in
    match make_shape (TyStr "Gene") (Some "abc") (Some two_spans) no_kwargs
          as r return match r with Ok (Some _) => Shape | _ => unit end
    with
    | Ok (Some sh) => sh
    | _ => tt
    end.

(** The legend group of a trace, when it has one. *)
Definition legend_group (tr : gmap string val1) : option val1 :=
  tr !! "legendgroup".

(** A trace whose legend group is a string or [None]. *)
Definition text_group (tr : gmap string val1) : Prop :=
  exists g : option string, legend_group tr = Some (V1 (str_or_None g)).

(** The [showlegend] of a track trace in a figure: [False] when one of the
    traces [before] it has its legend group, its own otherwise. *)
Definition legend_of (before : list (gmap string val1)) (tr : gmap string val1)
  : option val1 :=
  if bool_decide (legend_group tr ∈ map legend_group before)
  then Some (V1 (VBool false))
  else tr !! "showlegend".

(** The trace [tr'] is the trace [tr] but for the attributes [changed]. *)
Definition same_but (changed : list string) (tr tr' : gmap string val1) : Prop :=
  forall k : string, k ∉ changed -> tr' !! k = tr !! k.

(** [fig.layout.<k>.<a>] *)
Definition fig_axis_attr (f : gmap string figval) (k a : string) : result val1 :=
  l ← fig_layout f;
  ax ← get_axis l k;
  trace_attr ax a.

(** Examples: the annotated drawable of the examples with one track only,
    and the figures that the [figure] property gives for them. *)
Definition example_bottom_only : AnnotatedDrawable :=
  with_tracks None (bottom_track example_annotated) example_annotated.
Definition example_left_only : AnnotatedDrawable :=
  with_tracks (left_track example_annotated) None example_annotated.

Definition figure_of (self : AnnotatedDrawable) : gmap string figval :=
  match AnnotatedDrawable_figure self with
  | Ok (f, _) => f
  | Raise _ => ∅
  end.
Definition after_figure (self : AnnotatedDrawable) : AnnotatedDrawable :=
  match AnnotatedDrawable_figure self with
  | Ok (_, s) => s
  | Raise _ => self
  end.

Definition example_left_traces : list (gmap string val1) :=
  [example_trace "gene" [Some 1%Q; None; Some (5 # 2)%Q] [Some 2%Q; None; Some 3%Q];
   example_trace "gene" [Some 1%Q] [Some 1%Q]].
Definition example_bottom_traces : list (gmap string val1) :=
  [example_trace "cds" [Some 1%Q; None; Some (5 # 2)%Q]
     [Some (1 # 2)%Q; None; Some (1 # 3)%Q]].

(** Examples: a drawable without tracks, and one whose core builds its
    trace when asked for its figure. *)
Definition example_no_tracks : AnnotatedDrawable :=
  with_tracks None None example_annotated.

Definition example_build_fig (d : Drawable) : result Drawable :=
  Ok (add_trace (example_trace "core" [Some 1%Q] [Some 2%Q]) d).

Definition example_built : AnnotatedDrawable :=
  {| ad_base := ad_base example_annotated;
     xrange := xrange example_annotated;
     yrange := yrange example_annotated;
     _overlaying := false;
     core := Drawable_default;
     core_build := Some example_build_fig;
     left_track := left_track example_annotated;
     bottom_track := bottom_track example_annotated |}.

(** ** Facts about the Python primitives *)

Lemma length_range n : length (range n) = Z.to_nat n.
Proof. unfold range. by rewrite length_map, length_seq. Qed.

Lemma range_nonpos n : n <= 0 -> range n = [].
Proof. intros H. unfold range. by replace (Z.to_nat n) with 0%nat by lia. Qed.

Lemma lookup_range n (i : nat) :
  (i < Z.to_nat n)%nat -> range n !! i = Some (Z.of_nat i).
Proof.
  intros H. unfold range. rewrite list_lookup_fmap, lookup_seq_lt by done. done.
Qed.

Lemma index_in_range {A} (l : list A) (i : Z) a :
  0 <= i -> l !! Z.to_nat i = Some a -> index l i = Ok a.
Proof.
  intros Hi Hl. unfold index.
  pose proof (lookup_lt_Some _ _ _ Hl) as Hlt.
  replace (i <? 0) with false by (symmetry; apply Z.ltb_ge; lia).
  replace (i <? 0) with false by (symmetry; apply Z.ltb_ge; lia).
  replace (Z.of_nat (length l) <=? i) with false
    by (symmetry; apply Z.leb_gt; lia).
  simpl. by rewrite Hl.
Qed.

Lemma index_map_range {A} (f : Z -> A) n k :
  0 <= k < n -> index (map f (range n)) k = Ok (f k).
Proof.
  intros H. apply index_in_range; [lia|].
  rewrite list_lookup_fmap, lookup_range by lia. simpl. f_equal. f_equal. lia.
Qed.

Lemma index_out_of_range {A} (l : list A) (i : Z) :
  i < - Z.of_nat (length l) \/ Z.of_nat (length l) <= i ->
  index l i = Raise IndexError.
Proof.
  intros H. unfold index.
  destruct (i <? 0) eqn:Hi.
  - apply Z.ltb_lt in Hi.
    replace (i + Z.of_nat (length l) <? 0) with true
      by (symmetry; apply Z.ltb_lt; lia). done.
  - apply Z.ltb_ge in Hi.
    replace (i <? 0) with false by (symmetry; apply Z.ltb_ge; lia).
    replace (Z.of_nat (length l) <=? i) with true
      by (symmetry; apply Z.leb_le; lia). done.
Qed.

Lemma index_ok_or_IndexError {A} (l : list A) (i : Z) :
  (exists a, index l i = Ok a) \/ index l i = Raise IndexError.
Proof.
  unfold index. destruct (_ || _); [by right|].
  destruct (l !! _); [left; eauto | by right].
Qed.

Lemma comprehension_map {A B} (f : A -> result B) (g : A -> B) (l : list A) :
  (forall a, a ∈ l -> f a = Ok (g a)) -> comprehension f l = Ok (map g l).
Proof.
  induction l as [|a l IH]; intros H; simpl; [done|].
  rewrite H by left. simpl. rewrite IH; [done|].
  intros b Hb. apply H. by right.
Qed.

Lemma elem_of_range n k : k ∈ range n <-> 0 <= k < n.
Proof.
  unfold range. rewrite list_elem_of_fmap. split.
  - intros (i & -> & Hi). apply elem_of_seq in Hi. lia.
  - intros H. exists (Z.to_nat k). split; [lia|]. apply elem_of_seq. lia.
Qed.

(** ** [get_domain] in closed form *)

Lemma get_domain_domains total space :
  0 <= total ->
  comprehension
    (fun k => lo ← index (map (fun i => (per_element total * inject_Z i)%Q)
                            (range (total + 1))) k;
              hi ← index (map (fun i => (per_element total * inject_Z i)%Q)
                            (range (total + 1))) (k + 1);
              Ok ((lo + half_space total space)%Q, (hi - half_space total space)%Q))
    (range (Z.of_nat (length (map (fun i => (per_element total * inject_Z i)%Q)
                                 (range (total + 1)))) - 1))
  = Ok (map (fun k => domain_of total k space) (range total)).
Proof.
  intros Ht. rewrite length_map, length_range.
  replace (Z.of_nat (Z.to_nat (total + 1)) - 1) with total by lia.
  apply comprehension_map. intros k Hk. apply elem_of_range in Hk.
  rewrite !index_map_range by lia. done.
Qed.

Lemma get_domain_unfold total element is_y space :
  2 <= total -> element <= total - 1 ->
  get_domain total element is_y space =
  index (map (fun k => domain_of total k space) (range total))
        (if is_y then total - element - 1 else element).
Proof.
  intros Ht He. unfold get_domain.
  replace (total =? 1) with false by (symmetry; apply Z.eqb_neq; lia).
  replace (element >? total - 1) with false
    by (symmetry; rewrite Z.gtb_ltb; apply Z.ltb_ge; lia).
  replace (total =? 0) with false by (symmetry; apply Z.eqb_neq; lia).
  cbv zeta. fold (per_element total). fold (half_space total space).
  rewrite get_domain_domains by lia. done.
Qed.

Lemma get_domain_in_range total element is_y space :
  2 <= total -> 0 <= element <= total - 1 ->
  get_domain total element is_y space =
  Ok (domain_of total (if is_y then total - element - 1 else element) space).
Proof.
  intros Ht He. rewrite get_domain_unfold by lia.
  apply (index_map_range (fun k => domain_of total k space)).
  destruct is_y; lia.
Qed.

(** ** Arithmetic of a domain *)

Lemma lt_bool_spec a b : reflect (a < b)%Q (lt_bool a b).
Proof.
  unfold lt_bool. destruct (Qle_bool b a) eqn:H; constructor.
  - apply Qle_bool_iff in H. lra.
  - apply Qnot_le_lt. intros Hle. apply Qle_bool_iff in Hle. congruence.
Qed.

Lemma min_spec a b :
  (b < a /\ Py.min a b = b)%Q \/ (a <= b /\ Py.min a b = a)%Q.
Proof.
  unfold Py.min. destruct (lt_bool_spec b a); [left|right]; split; auto; lra.
Qed.

Lemma max_spec a b :
  (a < b /\ Py.max a b = b)%Q \/ (b <= a /\ Py.max a b = a)%Q.
Proof.
  unfold Py.max. destruct (lt_bool_spec a b); [left|right]; split; auto; lra.
Qed.

Lemma per_element_pos total : 1 <= total -> (0 < per_element total)%Q.
Proof.
  intros H. unfold per_element.
  assert (0 < inject_Z total)%Q by (change 0%Q with (inject_Z 0); rewrite <- Zlt_Qlt; lia).
  apply Qlt_shift_div_l; lra.
Qed.

Lemma per_element_total total :
  1 <= total -> (per_element total * inject_Z total == 1)%Q.
Proof.
  intros H. unfold per_element.
  assert (0 < inject_Z total)%Q by (change 0%Q with (inject_Z 0); rewrite <- Zlt_Qlt; lia).
  field. lra.
Qed.

Lemma half_space_bounds total :
  1 <= total ->
  (0 < half_space total default_space /\
   10 * half_space total default_space <= per_element total)%Q.
Proof.
  intros H. pose proof (per_element_pos total H) as Hp.
  unfold half_space, default_space.
  set (p := per_element total) in *.
  destruct (min_spec ((1 # 100) / 2) (p / 10)) as [[H1 ->]|[H1 ->]].
  all: unfold Qdiv in *; change (/ 10)%Q with (1 # 10)%Q in *;
    change (/ 2)%Q with (1 # 2)%Q in *.
  all: lra.
Qed.

Lemma domain_of_bounds total k :
  1 <= total -> 0 <= k <= total - 1 ->
  let d := domain_of total k default_space in
  (0 <= d.1 /\ d.1 <= 1 /\ 0 <= d.2 /\ d.2 <= 1 /\ d.1 < d.2)%Q.
Proof.
  intros Ht Hk. unfold domain_of. cbn [fst snd].
  pose proof (per_element_pos total Ht) as Hp.
  pose proof (per_element_total total Ht) as Hpt.
  destruct (half_space_bounds total Ht) as [Hs1 Hs2].
  set (p := per_element total) in *. set (s := half_space total default_space) in *.
  assert (Hk0 : (0 <= p * inject_Z k)%Q).
  { apply Qmult_le_0_compat; [lra|]. change 0%Q with (inject_Z 0).
    rewrite <- Zle_Qle. lia. }
  assert (Hk1 : (p * inject_Z (k + 1) == p * inject_Z k + p)%Q).
  { rewrite inject_Z_plus. change (inject_Z 1) with 1%Q. ring. }
  assert (Hk2 : (p * inject_Z (k + 1) <= 1)%Q).
  { rewrite <- Hpt. rewrite (Qmult_comm p (inject_Z (k + 1))), (Qmult_comm p (inject_Z total)).
    apply Qmult_le_compat_r; [|lra]. rewrite <- Zle_Qle. lia. }
  lra.
Qed.

(** ** Claims about [get_domain] *)

(** C1, as stated, fails: for [total = 1] and the default spacing the bounds
    returned are 0 and 1, whose sum is 1 and not 1 - 0.01. *)
Lemma get_domain_single_sum_counterexample :
  exists lo hi,
    get_domain 1 0 false default_space = Ok (lo, hi) /\
    ~ (lo + hi == 1 - default_space)%Q.
Proof. exists 0%Q, 1%Q. split; [reflexivity|]. unfold default_space. lra. Qed.

(** C1 (amended): for [total = 1], [get_domain] returns the whole axis
    [[0, 1]] for every element, [is_y] and spacing; its bounds sum to 1, which
    is 1 minus the spacing only when the spacing is 0. *)
Theorem get_domain_single_track (element : Z) (is_y : bool) (space : Q) :
  exists lo hi,
    get_domain 1 element is_y space = Ok (lo, hi) /\
    (lo == 0)%Q /\ (hi == 1)%Q /\ (lo + hi == 1)%Q /\
    ((lo + hi == 1 - space)%Q <-> (space == 0)%Q).
Proof.
  exists 0%Q, 1%Q. split; [reflexivity|].
  repeat split; try lra; intros; lra.
Qed.

(** C3, as stated, fails: with [total = 1] the element 5 lies outside 0..0
    and a domain is returned all the same. *)
Lemma get_domain_out_of_range_counterexample :
  ~ (5 <= 1 - 1) /\ get_domain 1 5 false default_space = Ok (0%Q, 1%Q).
Proof. split; [lia | reflexivity]. Qed.

(** C3 (amended): for every [total >= 2] and every [element > total - 1],
    [get_domain] raises the [ValueError] instead of returning a domain; for
    [total = 1] the same element gets the domain [[0, 1]]. *)
Theorem get_domain_index_too_big (total element : Z) (is_y : bool) (space : Q) :
  2 <= total -> element > total - 1 ->
  get_domain total element is_y space = Raise index_too_big /\
  get_domain 1 element is_y space = Ok (0%Q, 1%Q).
Proof.
  intros Ht He. split; [|reflexivity]. unfold get_domain.
  replace (total =? 1) with false by (symmetry; apply Z.eqb_neq; lia).
  replace (element >? total - 1) with true
    by (symmetry; rewrite Z.gtb_ltb; apply Z.ltb_lt; lia).
  reflexivity.
Qed.

Lemma get_domain_index_too_big_witness :
  get_domain 3 3 true default_space = Raise index_too_big /\
  get_domain 1 3 true default_space = Ok (0%Q, 1%Q).
Proof. apply (get_domain_index_too_big 3 3 true default_space); lia. Defined.

(** C7: for every [total >= 1], every [element] with
    [0 <= element <= total - 1], every [is_y] and the default spacing,
    [get_domain] returns two bounds that lie in [[0, 1]], the lower one
    strictly below the upper one. *)
Theorem get_domain_normalized (total element : Z) (is_y : bool) :
  1 <= total -> 0 <= element <= total - 1 ->
  exists lo hi,
    get_domain total element is_y default_space = Ok (lo, hi) /\
    (0 <= lo /\ lo <= 1 /\ 0 <= hi /\ hi <= 1 /\ lo < hi)%Q.
Proof.
  intros Ht He. destruct (Z.eq_dec total 1) as [->|Hne].
  - exists 0%Q, 1%Q. split; [reflexivity | lra].
  - rewrite get_domain_in_range by lia.
    set (k := if is_y then total - element - 1 else element).
    exists (domain_of total k default_space).1, (domain_of total k default_space).2.
    split; [reflexivity|].
    apply domain_of_bounds; [lia|]. subst k. destruct is_y; lia.
Qed.

Lemma get_domain_normalized_witness :
  exists lo hi,
    get_domain 3 1 true default_space = Ok (lo, hi) /\
    (0 <= lo /\ lo <= 1 /\ 0 <= hi /\ hi <= 1 /\ lo < hi)%Q.
Proof. apply (get_domain_normalized 3 1 true); lia. Defined.

(** ** Loops and indices that cannot fail *)

Lemma elem_of_range2 a b k : k ∈ range2 a b <-> a <= k < b.
Proof.
  unfold range2. rewrite list_elem_of_fmap. split.
  - intros (i & -> & Hi). apply elem_of_seq in Hi. lia.
  - intros H. exists (Z.to_nat (k - a)). split; [lia|]. apply elem_of_seq. lia.
Qed.

Lemma index_is_ok {A} (l : list A) (i : Z) :
  - Z.of_nat (length l) <= i < Z.of_nat (length l) -> exists a, index l i = Ok a.
Proof.
  intros H. unfold index.
  set (j := if i <? 0 then i + Z.of_nat (length l) else i).
  assert (Hj : 0 <= j < Z.of_nat (length l)).
  { subst j. destruct (Z.ltb_spec i 0); lia. }
  replace (j <? 0) with false by (symmetry; apply Z.ltb_ge; lia).
  replace (Z.of_nat (length l) <=? j) with false by (symmetry; apply Z.leb_gt; lia).
  simpl. destruct (l !! Z.to_nat j) eqn:E; [eauto|].
  apply lookup_ge_None in E. lia.
Qed.

Lemma index_nil {A} (i : Z) : index (@nil A) i = Raise IndexError.
Proof. apply index_out_of_range. simpl. lia. Qed.

Lemma for_is_ok {A S} (l : list A) (body : A -> S -> result S) :
  (forall a s, a ∈ l -> exists s', body a s = Ok s') ->
  forall s, exists s', for_ l body s = Ok s'.
Proof.
  induction l as [|a l IH]; intros H s; simpl; [eauto|].
  destruct (H a s) as [s' ->]; [left|]. simpl.
  apply IH. intros b t Hb. apply H. by right.
Qed.

(** The loop of the goal runs to its end when each round does. *)
Ltac loop_is_ok xs ys :=
  match goal with
  | |- context [for_ ?l ?b ?s0] =>
      let H := fresh in
      assert (H : forall a t, a ∈ l -> exists t', b a t = Ok t');
      [|destruct (for_is_ok l b H s0) as [[xs ys] ->];
        cbn [mbind result_bind Py.bind]]
  end.

(** ** The class of a constructed shape, and when construction succeeds *)



Lemma flip_mirror_arrow_x a b c :
  exists mx, flip_mirror (arrow_x a b c) = Ok mx.
Proof. unfold flip_mirror, arrow_x. simpl. eauto. Qed.


Lemma Rectangle_init_ok cs y h kw :
  cs <> [] -> exists sh, Rectangle_init cs y h kw = Ok sh.
Proof.
  intros Hne. unfold Rectangle_init.
  destruct (index_is_ok cs 0) as [c0 ->].
  { destruct cs; [done|]. simpl. lia. }
  simpl.
  loop_is_ok xs ys; [|eauto].
  intros i [xs ys] Hi%elem_of_range2.
  destruct (index_is_ok cs (i - 1)) as [cp ->]; [lia|].
  destruct (index_is_ok cs i) as [ci ->]; [lia|].
  simpl. eauto.
Qed.

Lemma Diamond_init_ok cs y h kw :
  cs <> [] -> exists sh, Diamond_init cs y h kw = Ok sh.
Proof.
  intros Hne. unfold Diamond_init.
  destruct (index_is_ok cs 0) as [c0 ->].
  { destruct cs; [done|]. simpl. lia. }
  simpl.
  loop_is_ok xs ys; [|eauto].
  intros i [xs ys] Hi%elem_of_range2.
  destruct (index_is_ok cs (i - 1)) as [cp ->]; [lia|].
  destruct (index_is_ok cs i) as [ci ->]; [lia|].
  simpl. eauto.
Qed.

Lemma Arrow_init_ok cs y h w r kw :
  cs <> [] -> exists sh, Arrow_init cs y h w r kw = Ok sh.
Proof.
  intros Hne. unfold Arrow_init.
  loop_is_ok xs ys.
  { intros i [xs ys] Hi%elem_of_range.
    destruct (index_is_ok cs i) as [ci ->]; [lia|].
    destruct (index_is_ok cs (i + 1)) as [cn ->]; [lia|].
    simpl. eauto. }
  destruct (index_is_ok cs (-1)) as [cl ->].
  { destruct cs; [done|]. simpl. lia. }
  simpl. destruct r; simpl; eauto.
Qed.

(** ** [make_shape] *)









(** C4, on the code: called with [coords = None] and a [type_] that is not a
    feature, [make_shape] raises the [TypeError] of [coords[0][0]]; the test
    that raises "No coordinates defined" comes after it and is not reached. *)
Theorem make_shape_missing_coords (name : option string) (kwargs : make_kwargs) :
  make_shape TyNone name None kwargs = Raise TypeError /\
  (forall s, make_shape (TyStr s) name None kwargs = Raise TypeError) /\
  make_shape (TyStr "gene") None None no_kwargs
    <> Raise (Exception_ "No coordinates defined").
Proof. repeat split; done. Qed.

(** ** [Drawable] *)

Lemma list_index_absent titles title :
  title_val title ∉ titles ->
  list_index titles title = Raise (ValueError "is not in list").
Proof.
  induction titles as [|t titles IH]; intros H; simpl; [done|].
  apply not_elem_of_cons in H as [Hne Hin].
  rewrite bool_decide_eq_false_2 by done. by rewrite IH.
Qed.

(** C10: when the names of the traces of a drawable do not contain [title],
    [pop_trace title] returns [None], leaves the trace list (the whole
    drawable) as it was, raises nothing and issues no warning. *)
Theorem pop_trace_absent (d : Drawable) (title : option string) (titles : list val1) :
  get_trace_titles d = Ok titles ->
  title_val title ∉ titles ->
  pop_trace title d = Ok {| returned := None; after := d; warned := [] |}.
Proof.
  intros Ht Hin. unfold pop_trace. rewrite Ht. simpl.
  by rewrite list_index_absent.
Qed.

Lemma pop_trace_absent_witness :
  pop_trace (Some "b") (add_trace (named_trace "a") Drawable_default)
  = Ok {| returned := None;
          after := add_trace (named_trace "a") Drawable_default;
          warned := [] |}.
Proof.
  apply (pop_trace_absent _ (Some "b") [V1 (VStr "a")]).
  - reflexivity.
  - intros H. apply list_elem_of_singleton in H. discriminate H.
Defined.

Lemma traces_add_traces ts d : traces (add_traces ts d) = traces d ++ ts.
Proof.
  revert d. induction ts as [|t ts IH]; intros d; simpl.
  - by rewrite app_nil_r.
  - unfold add_traces in *. simpl. rewrite IH. simpl.
    by rewrite <- app_assoc.
Qed.

Lemma add_traces_fields ts d :
  d_layout (add_traces ts d) = d_layout d /\
  xtitle (add_traces ts d) = xtitle d /\
  ytitle (add_traces ts d) = ytitle d.
Proof.
  revert d. induction ts as [|t ts IH]; intros d; [done|].
  unfold add_traces in *. simpl.
  destruct (IH (add_trace t d)) as (-> & -> & ->). done.
Qed.

Lemma dom_UnionDict_figure t l :
  dom (UnionDict_figure t l) = ({[ "data"; "layout" ]} : gset string).
Proof.
  unfold UnionDict_figure. by rewrite dom_insert_L, dom_singleton_L.
Qed.

Lemma figure_with_traces build d xa ya :
  get_axis (d_layout d) "xaxis" = Ok xa ->
  get_axis (d_layout d) "yaxis" = Ok ya ->
  (traces d = [] -> build = None) ->
  exists l,
    figure build d = Ok (UnionDict_figure (displayed (traces d)) l, set_layout l d).
Proof.
  intros Hx Hy Hb. unfold figure.
  assert ((match traces d, build with
           | [], Some build_fig => build_fig d
           | _, _ => Ok d
           end) = Ok d) as ->.
  { destruct (traces d); [by rewrite Hb|done]. }
  simpl. rewrite Hx. simpl. rewrite Hy. simpl.
  unfold axis_set at 2. rewrite Hx. simpl.
  unfold axis_set, get_axis. rewrite lookup_insert_ne by done.
  unfold get_axis in Hy. destruct (d_layout d !! "yaxis") as [[|ya']|]; try done.
  simpl. eauto.
Qed.

(** C5, as stated, fails: the figure of [Drawable()], to which no trace was
    ever added, has the one-element list [[{}]] under ["data"], not the empty
    sequence of its traces. *)
Lemma figure_data_counterexample :
  exists f d',
    figure None Drawable_default = Ok (f, d') /\
    f !! "data" = Some (FData [∅]) /\
    FData [∅] <> FData (traces Drawable_default).
Proof.
  eexists _, _. split; [vm_compute; reflexivity|]. split; [reflexivity|].
  intros H. discriminate H.
Qed.

(** C5 (amended): the [figure] property returns a mapping with exactly the
    keys ["data"] and ["layout"]. When the drawable holds a trace, the value
    under ["data"] is the list of its traces, those appended with [add_trace]
    last and in the order of the calls; when it holds none (and has no
    [_build_fig] that could supply some), the value is the list [[{}]]. *)
Theorem figure_data_in_order (build : option (Drawable -> result Drawable))
    (d : Drawable) (ts : list trace) (xa ya : axis) :
  get_axis (d_layout d) "xaxis" = Ok xa ->
  get_axis (d_layout d) "yaxis" = Ok ya ->
  (traces d ++ ts = [] -> build = None) ->
  exists f d',
    figure build (add_traces ts d) = Ok (f, d') /\
    dom f = ({[ "data"; "layout" ]} : gset string) /\
    (traces d ++ ts <> [] -> f !! "data" = Some (FData (traces d ++ ts))) /\
    (traces d ++ ts = [] -> f !! "data" = Some (FData [∅])) /\
    (exists l, f !! "layout" = Some (FLayout l)) /\
    traces d' = traces d ++ ts.
Proof.
  intros Hx Hy Hb.
  destruct (add_traces_fields ts d) as (Hl & _ & _).
  destruct (figure_with_traces build (add_traces ts d) xa ya) as [l Hf].
  - by rewrite Hl.
  - by rewrite Hl.
  - by rewrite traces_add_traces.
  - rewrite traces_add_traces in Hf.
    exists (UnionDict_figure (displayed (traces d ++ ts)) l),
           (set_layout l (add_traces ts d)).
    split; [done|]. split; [apply dom_UnionDict_figure|].
    split; [|split; [|split]].
    + intros Hne. unfold UnionDict_figure. rewrite lookup_insert_eq.
      destruct (traces d ++ ts); done.
    + intros ->. done.
    + exists l. done.
    + apply traces_add_traces.
Qed.

Lemma figure_data_in_order_witness :
  exists f d',
    figure None (add_traces [named_trace "a"; named_trace "b"] Drawable_default)
      = Ok (f, d') /\
    dom f = ({[ "data"; "layout" ]} : gset string) /\
    (traces Drawable_default ++ [named_trace "a"; named_trace "b"] <> [] ->
     f !! "data" = Some (FData (traces Drawable_default
                                 ++ [named_trace "a"; named_trace "b"]))) /\
    (traces Drawable_default ++ [named_trace "a"; named_trace "b"] = [] ->
     f !! "data" = Some (FData [∅])) /\
    (exists l, f !! "layout" = Some (FLayout l)) /\
    traces d' = traces Drawable_default ++ [named_trace "a"; named_trace "b"].
Proof.
  eapply (figure_data_in_order None Drawable_default
            [named_trace "a"; named_trace "b"]).
  - vm_compute. reflexivity.
  - vm_compute. reflexivity.
  - intros H. discriminate H.
Defined.

(** ** The head of an arrow and its reversal *)

Lemma fold_min_spec (l : list Q) (v : Q) :
  fold_left Py.min l v ∈ v :: l /\
  (forall u, u ∈ v :: l -> (fold_left Py.min l v <= u)%Q).
Proof.
  revert v. induction l as [|a l IH]; intros v; simpl.
  - split; [left|]. intros u Hu. apply list_elem_of_singleton in Hu as ->. lra.
  - destruct (IH (Py.min v a)) as [Hin Hle]. split.
    + apply elem_of_cons in Hin as [->|Hin].
      * destruct (min_spec v a) as [[_ ->]|[_ ->]]; [right; left | left].
      * right. by right.
    + intros u Hu.
      assert (fold_left Py.min l (Py.min v a) <= Py.min v a)%Q as Hm
        by (apply Hle; left).
      apply elem_of_cons in Hu as [->|Hu].
      * destruct (min_spec v a) as [[? E]|[? E]]; rewrite E in *; lra.
      * apply elem_of_cons in Hu as [->|Hu].
        -- destruct (min_spec v a) as [[? E]|[? E]]; rewrite E in *; lra.
        -- apply Hle. by right.
Qed.

Lemma fold_max_spec (l : list Q) (v : Q) :
  fold_left Py.max l v ∈ v :: l /\
  (forall u, u ∈ v :: l -> (u <= fold_left Py.max l v)%Q).
Proof.
  revert v. induction l as [|a l IH]; intros v; simpl.
  - split; [left|]. intros u Hu. apply list_elem_of_singleton in Hu as ->. lra.
  - destruct (IH (Py.max v a)) as [Hin Hle]. split.
    + apply elem_of_cons in Hin as [->|Hin].
      * destruct (max_spec v a) as [[_ ->]|[_ ->]]; [right; left | left].
      * right. by right.
    + intros u Hu.
      assert (Py.max v a <= fold_left Py.max l (Py.max v a))%Q as Hm
        by (apply Hle; left).
      apply elem_of_cons in Hu as [->|Hu].
      * destruct (max_spec v a) as [[? E]|[? E]]; rewrite E in *; lra.
      * apply elem_of_cons in Hu as [->|Hu].
        -- destruct (max_spec v a) as [[? E]|[? E]]; rewrite E in *; lra.
        -- apply Hle. by right.
Qed.

Lemma np_min_spec a lo :
  np_min a = Ok lo -> lo ∈ a /\ (forall u, u ∈ a -> (lo <= u)%Q).
Proof.
  destruct a as [|v a]; simpl; [done|]. intros [= <-]. apply fold_min_spec.
Qed.

Lemma np_max_spec a hi :
  np_max a = Ok hi -> hi ∈ a /\ (forall u, u ∈ a -> (u <= hi)%Q).
Proof.
  destruct a as [|v a]; simpl; [done|]. intros [= <-]. apply fold_max_spec.
Qed.

Lemma elem_of_rev {A} (l : list A) (v : A) : v ∈ rev l <-> v ∈ l.
Proof. rewrite !list_elem_of_In. symmetry. apply in_rev. Qed.




(** ** The constructors on the store against the constructors on values *)

Module StoreFacts.
Import Store.

Lemma bind_ok {A B} (m : M A) (k : A -> M B) s a s' :
  m s = (Ok a, s') -> (m ≫= k) s = k a s'.
Proof. intros H. unfold mbind, M_bind, bind. by rewrite H. Qed.

Lemma bind_raise {A B} (m : M A) (k : A -> M B) s e s' :
  m s = (Raise e, s') -> (m ≫= k) s = (Raise e, s').
Proof. intros H. unfold mbind, M_bind, bind. by rewrite H. Qed.

Lemma item_run s c cs i :
  s !! c = Some (OSpans cs) -> item c i s = (index cs i, s).
Proof.
  intros H. unfold item, spans, lift, mbind, M_bind, bind. by rewrite H.
Qed.

Lemma len_run s c cs :
  s !! c = Some (OSpans cs) -> len c s = (Ok (Z.of_nat (length cs)), s).
Proof.
  intros H. unfold len, spans, ret, mbind, M_bind, bind. by rewrite H.
Qed.

Lemma np_array_run s p l :
  s !! p = Some (OList l) -> np_array p s = (Ok l, s).
Proof. intros H. unfold np_array. by rewrite H. Qed.

Lemma extend_run s p l0 l :
  s !! p = Some (OList l0) ->
  extend p l s = (Ok (), <[p := OList (l0 ++ l)]> s).
Proof. intros H. unfold extend. by rewrite H. Qed.

Lemma new_list_fresh (s : store) l :
  exists p, new_list l s = (Ok p, <[p := OList l]> s) /\ s !! p = None.
Proof.
  exists (fresh (dom s)). split; [done|].
  apply not_elem_of_dom, is_fresh.
Qed.

Lemma building_start (s0 : store) lx ly :
  exists xs ys s,
    new_list lx s0 = (Ok xs, <[xs := OList lx]> s0) /\
    new_list ly (<[xs := OList lx]> s0) = (Ok ys, s) /\
    building s0 xs ys (lx, ly) s.
Proof.
  destruct (new_list_fresh s0 lx) as (xs & Hx & Hxs).
  destruct (new_list_fresh (<[xs := OList lx]> s0) ly) as (ys & Hy & Hys).
  exists xs, ys, (<[ys := OList ly]> (<[xs := OList lx]> s0)).
  split; [done|]. split; [done|].
  assert (xs <> ys) by (intros ->; by rewrite lookup_insert_eq in Hys).
  rewrite lookup_insert_ne in Hys by done.
  unfold building. simpl. split_and!; try done.
  - apply insert_subseteq_r; [done|]. by apply insert_subseteq_r.
  - rewrite lookup_insert_ne by done. by rewrite lookup_insert_eq.
  - by rewrite lookup_insert_eq.
Qed.

Lemma building_lookup s0 xs ys acc s c o :
  building s0 xs ys acc s -> s0 !! c = Some o -> s !! c = Some o.
Proof. intros (Hsub & _) Hc. by eapply lookup_weaken. Qed.

Lemma extend_xs s0 xs ys ax ay s :
  building s0 xs ys (ax, ay) s ->
  forall l,
    extend xs l s = (Ok (), <[xs := OList (ax ++ l)]> s) /\
    building s0 xs ys (ax ++ l, ay) (<[xs := OList (ax ++ l)]> s).
Proof.
  intros (Hsub & Hx & Hy & Hne & Hsx & Hsy) l. simpl in *.
  split; [by apply extend_run|].
  unfold building. simpl. split_and!; try done.
  - by apply insert_subseteq_r.
  - by rewrite lookup_insert_eq.
  - by rewrite lookup_insert_ne.
Qed.

Lemma extend_ys s0 xs ys ax ay s :
  building s0 xs ys (ax, ay) s ->
  forall l,
    extend ys l s = (Ok (), <[ys := OList (ay ++ l)]> s) /\
    building s0 xs ys (ax, ay ++ l) (<[ys := OList (ay ++ l)]> s).
Proof.
  intros (Hsub & Hx & Hy & Hne & Hsx & Hsy) l. simpl in *.
  split; [by apply extend_run|].
  unfold building. simpl. split_and!; try done.
  - by apply insert_subseteq_r.
  - by rewrite lookup_insert_ne.
  - by rewrite lookup_insert_eq.
Qed.

(** A loop on the store follows the loop on values round by round. *)
Lemma for_each_follows {A S} (s0 : store) (R : S -> store -> Prop)
    (l : list A) (run : A -> M ()) (body : A -> S -> result S) :
  (forall acc s, R acc s -> s0 ⊆ s) ->
  (forall a acc s, a ∈ l -> R acc s -> follows s0 R (body a acc) (run a s)) ->
  forall acc s, R acc s -> follows s0 R (for_ l body acc) (for_each l run s).
Proof.
  intros HR. induction l as [|a l IH]; intros Hstep acc s Hacc; simpl.
  - done.
  - specialize (Hstep a acc s (list_elem_of_here _ _) Hacc) as Ha.
    destruct (run a s) as [r s1] eqn:Hrun. unfold follows in Ha. simpl in Ha.
    destruct (body a acc) as [acc1|e]; simpl.
    + destruct Ha as [-> Hacc1]. erewrite bind_ok by exact Hrun.
      apply IH; [|done]. intros b acc' s' Hb. apply Hstep. by right.
    + destruct Ha as [-> Hsub]. erewrite bind_raise by exact Hrun. done.
Qed.


Lemma building_frame s0 xs ys acc s : building s0 xs ys acc s -> s0 ⊆ s.
Proof. by intros (H & _). Qed.

(** One statement of a constructor run on the store. *)
Ltac run_ok H := erewrite bind_ok by exact H.
Ltac run_item Hc E :=
  first
    [ erewrite bind_ok by (erewrite item_run by exact Hc; rewrite E; reflexivity)
    | erewrite bind_raise by (erewrite item_run by exact Hc; rewrite E; reflexivity) ].
Ltac run_extend B :=
  let E := fresh "E" in
  let B' := fresh "B" in
  match goal with
  | |- context [(extend ?p ?l ≫= _) _] =>
      first
        [ destruct (extend_xs _ _ _ _ _ _ B l) as [E B']; run_ok E
        | destruct (extend_ys _ _ _ _ _ _ B l) as [E B']; run_ok E ]
  | |- context [extend ?p ?l _] =>
      first
        [ destruct (extend_xs _ _ _ _ _ _ B l) as [E B']; rewrite E
        | destruct (extend_ys _ _ _ _ _ _ B l) as [E B']; rewrite E ]
  end;
  clear E B; rename B' into B.

(** Past the loop: its outcome on the store, from [follows]. *)
Ltac loop_done Hloop ax ay s3 H3 :=
  let r := fresh "r" in
  let Hfe := fresh "Hfe" in
  let Hr := fresh "Hr" in
  match type of Hloop with
  | follows _ _ _ ?fe => destruct fe as [r s3] eqn:Hfe
  end;
  destruct (for_ _ _ _) as [[ax ay]|?];
  destruct Hloop as [Hr H3]; simpl in Hr, H3; subst r;
  [erewrite bind_ok by exact Hfe | erewrite bind_raise by exact Hfe].

Lemma Rectangle_new_run s c cs y h kw :
  s !! c = Some (OSpans cs) ->
  exists s', Rectangle_new c y h kw s = (Rectangle_init cs y h kw, s') /\ s ⊆ s'.
Proof.
  intros Hc. unfold Rectangle_new, Rectangle_init.
  destruct (index cs 0) as [c0|e] eqn:E0; run_item Hc E0; [|by exists s].
  cbn [mbind result_bind Py.bind].
  match goal with
  | |- context [new_list ?lx ≫= λ xs, new_list ?ly ≫= _] =>
      destruct (building_start s lx ly) as (xs & ys & s2 & Hx & Hy & Hb)
  end.
  run_ok Hx. run_ok Hy.
  erewrite bind_ok by (apply len_run; eapply building_lookup; eauto).
  match goal with
  | |- context [for_each ?l ?run] =>
      match goal with
      | |- context [for_ l ?body ?acc] =>
          assert (Hloop : follows s (building s xs ys) (for_ l body acc)
                            (for_each l run s2))
      end
  end.
  { apply for_each_follows; [apply building_frame| |done].
    intros i [ax ay] s3 _ B. cbn beta iota.
    assert (Hc3 : s3 !! c = Some (OSpans cs)) by (eapply building_lookup; eauto).
    destruct (index cs (i - 1)) as [cp|e] eqn:Ep; run_item Hc3 Ep;
      [|split; [done | by eapply building_frame]].
    destruct (index cs i) as [ci|e] eqn:Ei; run_item Hc3 Ei;
      [|split; [done | by eapply building_frame]].
    cbn [mbind result_bind Py.bind].
    do 4 run_extend B.
    split; [done|exact B]. }
  loop_done Hloop ax ay s3 H3.
  - destruct H3 as (Hsub & _ & _ & _ & Hax & Hay). simpl in Hax, Hay.
    erewrite bind_ok by (by apply np_array_run).
    erewrite bind_ok by (by apply np_array_run).
    by exists s3.
  - by exists s3.
Qed.

Lemma Diamond_new_run s c cs y h kw :
  s !! c = Some (OSpans cs) ->
  exists s', Diamond_new c y h kw s = (Diamond_init cs y h kw, s') /\ s ⊆ s'.
Proof.
  intros Hc. unfold Diamond_new, Diamond_init.
  destruct (index cs 0) as [c0|e] eqn:E0; run_item Hc E0; [|by exists s].
  cbn [mbind result_bind Py.bind].
  match goal with
  | |- context [new_list ?lx ≫= λ xs, new_list ?ly ≫= _] =>
      destruct (building_start s lx ly) as (xs & ys & s2 & Hx & Hy & Hb)
  end.
  run_ok Hx. run_ok Hy.
  erewrite bind_ok by (apply len_run; eapply building_lookup; eauto).
  match goal with
  | |- context [for_each ?l ?run] =>
      match goal with
      | |- context [for_ l ?body ?acc] =>
          assert (Hloop : follows s (building s xs ys) (for_ l body acc)
                            (for_each l run s2))
      end
  end.
  { apply for_each_follows; [apply building_frame| |done].
    intros i [ax ay] s3 _ B. cbn beta iota.
    assert (Hc3 : s3 !! c = Some (OSpans cs)) by (eapply building_lookup; eauto).
    destruct (index cs (i - 1)) as [cp|e] eqn:Ep; run_item Hc3 Ep;
      [|split; [done | by eapply building_frame]].
    destruct (index cs i) as [ci|e] eqn:Ei; run_item Hc3 Ei;
      [|split; [done | by eapply building_frame]].
    cbn [mbind result_bind Py.bind].
    do 4 run_extend B.
    split; [done|exact B]. }
  loop_done Hloop ax ay s3 H3.
  - destruct H3 as (Hsub & _ & _ & _ & Hax & Hay). simpl in Hax, Hay.
    erewrite bind_ok by (by apply np_array_run).
    erewrite bind_ok by (by apply np_array_run).
    by exists s3.
  - by exists s3.
Qed.

Lemma Arrow_new_run s c cs y h w r kw :
  s !! c = Some (OSpans cs) ->
  exists s', Arrow_new c y h w r kw s = (Arrow_init cs y h w r kw, s') /\ s ⊆ s'.
Proof.
  intros Hc. unfold Arrow_new, Arrow_init.
  destruct (building_start s [] []) as (xs & ys & s2 & Hx & Hy & Hb).
  run_ok Hx. run_ok Hy.
  erewrite bind_ok by (apply len_run; eapply building_lookup; eauto).
  match goal with
  | |- context [for_each ?l ?run] =>
      match goal with
      | |- context [for_ l ?body ?acc] =>
          assert (Hloop : follows s (building s xs ys) (for_ l body acc)
                            (for_each l run s2))
      end
  end.
  { apply for_each_follows; [apply building_frame| |done].
    intros i [ax ay] s3 _ B. cbn beta iota.
    assert (Hc3 : s3 !! c = Some (OSpans cs)) by (eapply building_lookup; eauto).
    destruct (index cs i) as [ci|e] eqn:Ei; run_item Hc3 Ei;
      [|split; [done | by eapply building_frame]].
    cbn [mbind result_bind Py.bind].
    do 2 run_extend B.
    pose proof (building_lookup _ _ _ _ _ _ _ B Hc) as Hc5.
    destruct (index cs (i + 1)) as [cn|e] eqn:En; run_item Hc5 En;
      [|split; [done | by eapply building_frame]].
    cbn [mbind result_bind Py.bind].
    do 2 run_extend B.
    split; [done|exact B]. }
  loop_done Hloop ax ay s3 B; [|by exists s3].
  cbn [mbind result_bind Py.bind].
  pose proof (building_lookup _ _ _ _ _ _ _ B Hc) as Hc3.
  destruct (index cs (-1)) as [cl|e] eqn:El; run_item Hc3 El;
    [|exists s3; split; [done | by eapply building_frame]].
  cbn [mbind result_bind Py.bind]. cbv zeta.
  set (head_x := arrow_x (span_x cl) (span_width cl) (span_width cl * w * 2)).
  set (head_y := arrow_y y h (h * w * 2)).
  destruct r; cbn [negb].
  - destruct (flip_mirror head_x) as [mx|e] eqn:Em.
    + destruct (extend_xs _ _ _ _ _ _ B (map Some mx)) as [E1 B1].
      destruct (extend_ys _ _ _ _ _ _ B1 (map Some (rev head_y))) as [E2 B2].
      erewrite bind_ok; cycle 1.
      { erewrite bind_ok by reflexivity. run_ok E1. exact E2. }
      destruct B2 as (Hsub & _ & _ & _ & Hax & Hay). simpl in Hax, Hay.
      erewrite bind_ok by (by apply np_array_run).
      erewrite bind_ok by (by apply np_array_run).
      cbn [mbind result_bind Py.bind]. eauto.
    + erewrite bind_raise; cycle 1.
      { erewrite bind_raise by reflexivity. reflexivity. }
      cbn [mbind result_bind Py.bind].
      exists s3. split; [done | by eapply building_frame].
  - destruct (extend_xs _ _ _ _ _ _ B (map Some head_x)) as [E1 B1].
    destruct (extend_ys _ _ _ _ _ _ B1 (map Some head_y)) as [E2 B2].
    erewrite bind_ok; cycle 1.
    { run_ok E1. exact E2. }
    destruct B2 as (Hsub & _ & _ & _ & Hax & Hay). simpl in Hax, Hay.
    erewrite bind_ok by (by apply np_array_run).
    erewrite bind_ok by (by apply np_array_run).
    cbn [mbind result_bind Py.bind]. eauto.
Qed.

End StoreFacts.

Lemma construct_run (c : Store.call) (s : gmap positive Store.obj)
    (v : Store.call_value) :
  Store.arguments s c = Some v ->
  (Store.construct c s).1 = Store.construct_value v /\
  s ⊆ (Store.construct c s).2.
Proof.
  destruct c as [c y h kw|c y h kw|c y h w r kw|px py size symbol kw];
    simpl; unfold Store.spans_at.
  - destruct (s !! c) as [[cs|]|] eqn:Hc; simpl; try done. intros [= <-].
    destruct (StoreFacts.Rectangle_new_run s c cs y h kw Hc) as (s' & -> & Hs).
    done.
  - destruct (s !! c) as [[cs|]|] eqn:Hc; simpl; try done. intros [= <-].
    destruct (StoreFacts.Diamond_new_run s c cs y h kw Hc) as (s' & -> & Hs).
    done.
  - destruct (s !! c) as [[cs|]|] eqn:Hc; simpl; try done. intros [= <-].
    destruct (StoreFacts.Arrow_new_run s c cs y h w r kw Hc) as (s' & -> & Hs).
    done.
  - intros [= <-]. done.
Qed.

(** C9: the constructors of [Rectangle], [Diamond], [Arrow] and [Point] are
    pure. Two constructions from equal arguments, in whatever stores, end the
    same way, with shapes whose [x] and [y] arrays are equal; what they return
    is a function of the argument values alone (the constructor on values),
    so nothing else of the store is read; and every object that was in the
    store before a construction is in it, unchanged, afterwards: only the new
    lists were written. *)
Theorem constructors_pure (c1 c2 : Store.call) (s1 s2 : gmap positive Store.obj)
    (v : Store.call_value) :
  Store.arguments s1 c1 = Some v ->
  Store.arguments s2 c2 = Some v ->
  (Store.construct c1 s1).1 = Store.construct_value v /\
  (Store.construct c2 s2).1 = Store.construct_value v /\
  (forall sh1 sh2,
     (Store.construct c1 s1).1 = Ok sh1 ->
     (Store.construct c2 s2).1 = Ok sh2 ->
     x sh1 = x sh2 /\ y sh1 = y sh2) /\
  s1 ⊆ (Store.construct c1 s1).2 /\
  s2 ⊆ (Store.construct c2 s2).2.
Proof.
  intros [E1 F1]%construct_run [E2 F2]%construct_run.
  split_and!; try done.
  intros sh1 sh2 H1 H2. rewrite E1 in H1. rewrite E2 in H2.
  rewrite H1 in H2. by injection H2 as ->.
Qed.

Lemma constructors_pure_witness :
  (Store.construct
     (Store.NewArrow 5%positive 0 (1 # 4) (1 # 10) true shape_defaults) store_a).1
  = Store.construct_value
      (Store.ArrowOf two_spans 0 (1 # 4) (1 # 10) true shape_defaults) /\
  (Store.construct
     (Store.NewArrow 2%positive 0 (1 # 4) (1 # 10) true shape_defaults) store_b).1
  = Store.construct_value
      (Store.ArrowOf two_spans 0 (1 # 4) (1 # 10) true shape_defaults) /\
  (forall sh1 sh2,
     (Store.construct
        (Store.NewArrow 5%positive 0 (1 # 4) (1 # 10) true shape_defaults) store_a).1
     = Ok sh1 ->
     (Store.construct
        (Store.NewArrow 2%positive 0 (1 # 4) (1 # 10) true shape_defaults) store_b).1
     = Ok sh2 ->
     x sh1 = x sh2 /\ y sh1 = y sh2) /\
  store_a ⊆ (Store.construct
               (Store.NewArrow 5%positive 0 (1 # 4) (1 # 10) true shape_defaults)
               store_a).2 /\
  store_b ⊆ (Store.construct
               (Store.NewArrow 2%positive 0 (1 # 4) (1 # 10) true shape_defaults)
               store_b).2.
Proof.
  apply (constructors_pure _ _ store_a store_b
           (Store.ArrowOf two_spans 0 (1 # 4) (1 # 10) true shape_defaults));
    vm_compute; reflexivity.
Defined.

(** ** The two-track layout *)

(** Unfolds the first statement of a computation known to succeed. *)
Ltac bind_inv H :=
  match type of H with
  | (?m ≫= _) = Ok _ =>
      let E := fresh "E" in
      destruct m eqn:E; cbn [mbind result_bind Py.bind] in H;
      [|discriminate H]
  end.

Lemma max_cases a b :
  (Py.max a b = a \/ Py.max a b = b) /\ (a <= Py.max a b /\ b <= Py.max a b)%Q.
Proof. destruct (max_spec a b) as [[? ->]|[? ->]]; split; auto; lra. Qed.

(** The running maximum of a track loop is the largest of its initial value
    and the coordinates of the track. *)
Lemma track_loop_max (f : string) (pre : gmap string val1 -> gmap string val1)
    (ts : list (gmap string val1)) :
  (forall tr, trace_coords (pre tr) f = trace_coords tr f) ->
  forall seen m0 trs seen' m trs',
    for_ ts (track_step f pre) (seen, m0, trs) = Ok (seen', m, trs') ->
    m ∈ m0 :: track_values f ts /\
    (forall v, v ∈ m0 :: track_values f ts -> (v <= m)%Q).
Proof.
  intros Hpre. induction ts as [|tr ts IH]; intros seen m0 trs seen' m trs' H.
  - simpl in H. injection H as <- <- <-. split; [left|].
    intros v Hv. apply list_elem_of_singleton in Hv as ->. lra.
  - simpl in H. bind_inv H. destruct a as [[seen1 m1] trs1].
    unfold track_step in E. rewrite Hpre in E.
    bind_inv E. bind_inv E. bind_inv E.
    destruct a1 as [g|]; [|discriminate E]. injection E as <- <- <-.
    apply IH in H as [Hin Hle]. simpl. rewrite E0.
    apply np_max_spec in E1 as [Ha0 Hmax].
    destruct (max_cases a0 m0) as [Hc [Hc1 Hc2]].
    split.
    + apply elem_of_cons in Hin as [->|Hin].
      * destruct Hc as [->| ->]; [|left].
        right. apply elem_of_app. by left.
      * right. apply elem_of_app. by right.
    + intros v Hv. assert (Py.max a0 m0 <= m)%Q as Hm by (apply Hle; left).
      apply elem_of_cons in Hv as [->|Hv]; [lra|].
      apply elem_of_app in Hv as [Hv|Hv].
      * specialize (Hmax v Hv). lra.
      * apply Hle. by right.
Qed.

(** [int(m) + 1] is the first integer above a number [m] that is not
    negative. *)
Lemma int_floor (m : Q) :
  (0 <= m)%Q ->
  (inject_Z (Py.int m + 1) - 1 <= m)%Q /\ (m < inject_Z (Py.int m + 1))%Q.
Proof.
  intros Hm. assert (Py.int m = Qfloor m) as ->.
  { destruct m as [n d]. unfold Py.int, Qfloor. simpl.
    apply Z.quot_div_nonneg; [|lia].
    unfold Qle in Hm. simpl in Hm. lia. }
  split.
  - rewrite inject_Z_plus. change (inject_Z 1) with 1%Q.
    pose proof (Qfloor_le m). lra.
  - apply Qlt_floor.
Qed.

Lemma track_loop_extent (f : string) (pre : gmap string val1 -> gmap string val1)
    (ts : list (gmap string val1)) seen trs seen' m trs' :
  (forall tr, trace_coords (pre tr) f = trace_coords tr f) ->
  for_ ts (track_step f pre) (seen, 0%Q, trs) = Ok (seen', m, trs') ->
  extent_of (track_values f ts) (Py.int m + 1).
Proof.
  intros Hpre H. destruct (track_loop_max f pre ts Hpre _ _ _ _ _ _ H) as [Hin Hle].
  exists m. split; [done|]. split; [done|].
  apply int_floor. apply Hle. left.
Qed.


(** ** Domains through the updates of a layout *)


Lemma axis_ior_inv (l : gmap string val2) k d l' :
  axis_ior l k d = Ok l' ->
  exists a, l !! k = Some (D2 a) /\ l' = <[k := D2 (union1 a d)]> l.
Proof.
  unfold axis_ior. destruct (l !! k) as [[|a]|]; try done.
  intros [= <-]. eauto.
Qed.

Lemma axis_set_inv (l : gmap string val2) k f v l' :
  axis_set l k f v = Ok l' ->
  exists a, l !! k = Some (D2 a) /\ l' = <[k := D2 (<[f := v]> a)]> l.
Proof.
  unfold axis_set, get_axis. destruct (l !! k) as [[|a]|]; try done.
  simpl. intros [= <-]. eauto.
Qed.







Lemma build_fig_tracks xa ya self f self1 :
  _build_fig xa ya self = Ok (f, self1) ->
  left_track self1 = left_track self /\ bottom_track self1 = bottom_track self.
Proof.
  unfold _build_fig. intros H.
  bind_inv H. destruct a as [f0 core1].
  do 7 bind_inv H.
  by injection H as <- <-.
Qed.





(** ** More about [get_domain] *)

Lemma index_negative {A} (l : list A) (i : Z) :
  - Z.of_nat (length l) <= i < 0 -> index l i = index l (i + Z.of_nat (length l)).
Proof.
  intros H. unfold index. cbv zeta.
  assert (E1 : (i <? 0) = true) by (apply Z.ltb_lt; lia).
  assert (E2 : (i + Z.of_nat (length l) <? 0) = false) by (apply Z.ltb_ge; lia).
  rewrite E1. rewrite !E2. reflexivity.
Qed.

(** X1: [is_y] counts the elements from the other end: for an element in
    range, the y domain of [element] is the x domain of
    [total - 1 - element]. *)
Theorem get_domain_is_y_mirror (total element : Z) (space : Q) :
  1 <= total -> 0 <= element <= total - 1 ->
  get_domain total element true space
  = get_domain total (total - 1 - element) false space.
Proof.
  intros Ht He. destruct (Z.eq_dec total 1) as [->|Hne]; [done|].
  rewrite !get_domain_in_range by lia. do 2 f_equal. lia.
Qed.

Lemma get_domain_is_y_mirror_witness :
  get_domain 4 1 true default_space = get_domain 4 (4 - 1 - 1) false default_space.
Proof. apply (get_domain_is_y_mirror 4 1 default_space); lia. Defined.

(** X2: with a spacing that is not negative, the domains of neighbouring
    elements do not overlap: the domain of an element ends where the domain
    of the next one begins, or before. *)
Theorem get_domain_neighbours (total element : Z) (space : Q) :
  2 <= total -> 0 <= element -> element + 1 <= total - 1 -> (0 <= space)%Q ->
  exists lo1 hi1 lo2 hi2,
    get_domain total element false space = Ok (lo1, hi1) /\
    get_domain total (element + 1) false space = Ok (lo2, hi2) /\
    (hi1 <= lo2)%Q.
Proof.
  intros Ht He1 He2 Hs. rewrite !get_domain_in_range by lia.
  unfold domain_of. do 4 eexists. split; [reflexivity|]. split; [reflexivity|].
  assert (Hp : (0 < per_element total)%Q) by (apply per_element_pos; lia).
  set (p := per_element total) in *. set (s := half_space total space).
  assert (0 <= s)%Q; [|lra].
  subst s. unfold half_space. fold p.
  destruct (min_spec (space / 2) (p / 10)) as [[_ ->]|[_ ->]].
  - apply Qle_shift_div_l; lra.
  - apply Qle_shift_div_l; lra.
Qed.

Lemma get_domain_neighbours_witness :
  exists lo1 hi1 lo2 hi2,
    get_domain 3 0 false default_space = Ok (lo1, hi1) /\
    get_domain 3 (0 + 1) false default_space = Ok (lo2, hi2) /\
    (hi1 <= lo2)%Q.
Proof.
  apply (get_domain_neighbours 3 0 default_space); [lia..|].
  unfold Qle. simpl. lia.
Defined.

(** X3: an element below 0 is not rejected by the test of [get_domain]. For
    an x domain it is a Python index from the end (the domain of
    [total + element]) down to [-total], and an [IndexError] below that; for
    a y domain it always ends in an [IndexError]. *)
Theorem get_domain_negative_element (total element : Z) (space : Q) :
  2 <= total -> element < 0 ->
  get_domain total element true space = Raise IndexError /\
  (- total <= element ->
   get_domain total element false space
   = get_domain total (total + element) false space) /\
  (element < - total ->
   get_domain total element false space = Raise IndexError).
Proof.
  intros Ht He.
  assert (Hlen : length (map (fun k => domain_of total k space) (range total))
                 = Z.to_nat total) by (by rewrite length_map, length_range).
  split; [|split].
  - rewrite get_domain_unfold by lia. apply index_out_of_range.
    rewrite Hlen. lia.
  - intros Hlo. rewrite !get_domain_unfold by lia.
    rewrite index_negative by (rewrite Hlen; lia).
    rewrite Hlen. f_equal. lia.
  - intros Hlo. rewrite get_domain_unfold by lia. apply index_out_of_range.
    rewrite Hlen. lia.
Qed.

Lemma get_domain_negative_element_witness :
  get_domain 3 (-1) true default_space = Raise IndexError /\
  (- 3 <= -1 ->
   get_domain 3 (-1) false default_space
   = get_domain 3 (3 + -1) false default_space) /\
  (-1 < - 3 -> get_domain 3 (-1) false default_space = Raise IndexError).
Proof. apply (get_domain_negative_element 3 (-1) default_space); lia. Defined.

(** X4: for a total of 0 or less, [get_domain] never returns a domain: it
    raises the [ValueError] when [element > total - 1], otherwise a
    [ZeroDivisionError] for [total = 0] and an [IndexError] for a negative
    total. *)
Theorem get_domain_no_elements (total element : Z) (is_y : bool) (space : Q) :
  total <= 0 ->
  get_domain total element is_y space =
  if bool_decide (total - 1 < element) then Raise index_too_big
  else if bool_decide (total = 0) then Raise ZeroDivisionError
  else Raise IndexError.
Proof.
  intros Ht. unfold get_domain.
  replace (total =? 1) with false by (symmetry; apply Z.eqb_neq; lia).
  rewrite Z.gtb_ltb. destruct (Z.ltb_spec (total - 1) element) as [Hlt|Hge].
  - by rewrite bool_decide_eq_true_2.
  - rewrite bool_decide_eq_false_2 by lia.
    destruct (Z.eqb_spec total 0) as [->|Hne].
    + by rewrite bool_decide_eq_true_2.
    + rewrite bool_decide_eq_false_2 by done.
      rewrite (range_nonpos (total + 1)) by lia. simpl.
      apply index_nil.
Qed.

Lemma get_domain_no_elements_witness :
  get_domain (-2) (-5) true default_space =
  if bool_decide (-2 - 1 < -5) then Raise index_too_big
  else if bool_decide (-2 = 0) then Raise ZeroDivisionError
  else Raise IndexError.
Proof. apply (get_domain_no_elements (-2) (-5) true default_space). lia. Defined.

(** ** The outlines of the shapes *)

Lemma for_invariant {A S} (P : S -> Prop) (l : list A) (body : A -> S -> result S) :
  (forall a s s', a ∈ l -> P s -> body a s = Ok s' -> P s') ->
  forall s s', P s -> for_ l body s = Ok s' -> P s'.
Proof.
  induction l as [|a l IH]; intros Hstep s s' Hs H; simpl in H.
  - by injection H as <-.
  - bind_inv H. eapply IH; [|eapply Hstep; [left|exact Hs|exact E]|exact H].
    intros b t t' Hb. apply Hstep. by right.
Qed.

Lemma gaps_app a b : gaps (a ++ b) = gaps a ++ gaps b.
Proof. unfold gaps. apply map_app. Qed.

Lemma gaps_numbers (a b : list Q) :
  length a = length b -> gaps (map Some a) = gaps (map Some b).
Proof.
  revert b. induction a as [|u a IH]; intros [|v b] H; simpl in *; try done.
  f_equal. apply IH. lia.
Qed.

Lemma gaps_length a b : gaps a = gaps b -> length a = length b.
Proof.
  intros H. apply (f_equal length) in H. unfold gaps in H.
  by rewrite !length_map in H.
Qed.

Lemma Rectangle_gaps cs y0 h kw sh :
  Rectangle_init cs y0 h kw = Ok sh -> gaps (x sh) = gaps (y sh).
Proof.
  unfold Rectangle_init. intros H. bind_inv H. bind_inv H.
  destruct a0 as [xs ys]. injection H as <-. simpl.
  revert E0. apply (for_invariant (fun s => gaps s.1 = gaps s.2)); [|done].
  intros i [ax ay] [ax' ay'] _ Hg Hb. simpl in *.
  bind_inv Hb. bind_inv Hb. injection Hb as <- <-.
  rewrite !gaps_app, Hg. done.
Qed.

Lemma Diamond_gaps cs y0 h kw sh :
  Diamond_init cs y0 h kw = Ok sh -> gaps (x sh) = gaps (y sh).
Proof.
  unfold Diamond_init. intros H. bind_inv H. bind_inv H.
  destruct a0 as [xs ys]. injection H as <-. simpl.
  revert E0. apply (for_invariant (fun s => gaps s.1 = gaps s.2)); [|done].
  intros i [ax ay] [ax' ay'] _ Hg Hb. simpl in *.
  bind_inv Hb. bind_inv Hb. injection Hb as <- <-.
  rewrite !gaps_app, Hg. done.
Qed.

Lemma Arrow_gaps cs y0 h w r kw sh :
  Arrow_init cs y0 h w r kw = Ok sh -> gaps (x sh) = gaps (y sh).
Proof.
  unfold Arrow_init. intros H. bind_inv H. destruct a as [xs ys].
  bind_inv H. bind_inv H. destruct a0 as [xs' ys']. injection H as <-. simpl.
  assert (Hbody : gaps xs = gaps ys).
  { revert E. apply (for_invariant (fun s => gaps s.1 = gaps s.2)); [|done].
    intros i [ax ay] [ax' ay'] _ Hg Hb. simpl in *.
    bind_inv Hb. bind_inv Hb. injection Hb as <- <-.
    rewrite !gaps_app, Hg. done. }
  destruct r; cbn [negb] in E1.
  - bind_inv E1. injection E1 as <- <-.
    rewrite !gaps_app, Hbody. f_equal.
    apply (gaps_numbers a0 (rev (arrow_y y0 h (h * w * 2)))).
    unfold flip_mirror in E2. bind_inv E2. bind_inv E2. injection E2 as <-.
    reflexivity.
  - injection E1 as <- <-. rewrite !gaps_app, Hbody. done.
Qed.

(** X5: in every shape built by [Rectangle], [Diamond], [Arrow] or [Point],
    the [x] and [y] arrays have the same length and their [None] entries (the
    breaks between the polygons) are at the same positions. *)
Theorem shape_arrays_aligned (v : Store.call_value) (sh : Shape) :
  Store.construct_value v = Ok sh ->
  length (x sh) = length (y sh) /\ gaps (x sh) = gaps (y sh).
Proof.
  intros H. assert (gaps (x sh) = gaps (y sh)) as Hg.
  { destruct v; simpl in H.
    - by eapply Rectangle_gaps.
    - by eapply Diamond_gaps.
    - by eapply Arrow_gaps.
    - by injection H as <-. }
  split; [by apply gaps_length | done].
Qed.

Lemma shape_arrays_aligned_witness :
  exists sh,
    Store.construct_value
      (Store.ArrowOf two_spans 0 (1 # 4) (1 # 10) true shape_defaults) = Ok sh /\
    length (x sh) = length (y sh) /\ gaps (x sh) = gaps (y sh).
Proof.
  eexists. split; [vm_compute; reflexivity|].
  apply (shape_arrays_aligned
           (Store.ArrowOf two_spans 0 (1 # 4) (1 # 10) true shape_defaults)).
  vm_compute. reflexivity.
Defined.

(** ** Top, bottom and height of a shape *)

Lemma elem_of_not_nan (a : list (option Q)) (v : Q) : v ∈ not_nan a <-> Some v ∈ a.
Proof.
  unfold not_nan. rewrite list_elem_of_omap. split.
  - intros (o & Ho & Hv). simpl in Hv. by subst o.
  - intros H. by exists (Some v).
Qed.

(** Halves, for [lra]. *)
Ltac halves := unfold Qdiv in *; change (/ 2)%Q with (1 # 2)%Q in *.

(** The largest and the least of the numbers of an array, when both are
    among its entries. *)
Lemma extremes_of (a : list (option Q)) (lo hi : Q) :
  (forall v, Some v ∈ a -> (lo <= v /\ v <= hi)%Q) ->
  Some lo ∈ a -> Some hi ∈ a ->
  exists t b,
    np_max (not_nan a) = Ok t /\ np_min (not_nan a) = Ok b /\
    (t == hi)%Q /\ (b == lo)%Q.
Proof.
  intros Hall Hlo Hhi.
  apply elem_of_not_nan in Hlo, Hhi.
  destruct (not_nan a) as [|v l] eqn:E; [by apply elem_of_nil in Hlo|].
  exists (fold_left Py.max l v), (fold_left Py.min l v).
  split; [done|]. split; [done|].
  destruct (fold_max_spec l v) as [Hmi Hmu].
  destruct (fold_min_spec l v) as [Hni Hnu].
  rewrite <- E in Hmi, Hni. apply elem_of_not_nan, Hall in Hmi, Hni.
  specialize (Hmu hi Hhi). specialize (Hnu lo Hlo).
  split; lra.
Qed.

Lemma elem_of_list3 (v a b c : Q) : v ∈ [a; b; c] -> v = a \/ v = b \/ v = c.
Proof.
  rewrite !elem_of_cons, elem_of_nil. tauto.
Qed.

(** What the [y] array of a rectangle holds: [y], [y + height] and, on the
    links, [y + height / 2]. *)
Lemma Rectangle_ys cs y0 h kw sh :
  Rectangle_init cs y0 h kw = Ok sh ->
  (forall v, Some v ∈ y sh -> v ∈ [y0; y0 + h; y0 + h / 2]%Q) /\
  Some y0 ∈ y sh /\ Some (y0 + h)%Q ∈ y sh.
Proof.
  unfold Rectangle_init. intros H. bind_inv H. bind_inv H.
  destruct a0 as [xs ys]. injection H as <-. simpl.
  revert E0.
  apply (for_invariant
           (fun s => (forall v, Some v ∈ s.2 -> v ∈ [y0; y0 + h; y0 + h / 2]%Q) /\
                     Some y0 ∈ s.2 /\ Some (y0 + h)%Q ∈ s.2)).
  - intros i [ax ay] [ax' ay'] _ (Hall & H1 & H2) Hb. simpl in *.
    bind_inv Hb. bind_inv Hb. injection Hb as <- <-.
    split; [|split; apply elem_of_app; left; apply elem_of_app; by left].
    intros v Hv. unfold link_ys, rect_ys in Hv.
    rewrite !elem_of_app, !elem_of_cons, elem_of_nil in Hv.
    destruct Hv as [[Hv|Hv]|Hv]; [by apply Hall|..];
      destruct_or!; simplify_eq; rewrite !elem_of_cons; auto.
  - simpl. unfold rect_ys. split; [|split].
    + intros v Hv. rewrite !elem_of_cons, elem_of_nil in Hv.
      destruct_or!; simplify_eq; rewrite !elem_of_cons; auto.
    + left.
    + right. left.
Qed.

(** X6: a rectangle built on a coordinate list that is not empty stands on
    [y]: its top and its bottom are the larger and the smaller of [y] and
    [y + height], whatever the spans. *)
Theorem Rectangle_vertical (cs : list span) (y0 h : Q) (kw : shape_kwargs) :
  cs <> [] ->
  exists sh t b,
    Rectangle_init cs y0 h kw = Ok sh /\
    top sh = Ok t /\ bottom sh = Ok b /\
    (t == Py.max y0 (y0 + h))%Q /\ (b == Py.min y0 (y0 + h))%Q.
Proof.
  intros Hne. destruct (Rectangle_init_ok cs y0 h kw Hne) as [sh Hsh].
  destruct (Rectangle_ys _ _ _ _ _ Hsh) as (Hall & H1 & H2).
  destruct (extremes_of (y sh) (Py.min y0 (y0 + h)) (Py.max y0 (y0 + h)))
    as (t & b & Ht & Hb & Et & Eb).
  - intros v Hv. apply Hall, elem_of_list3 in Hv.
    destruct (min_spec y0 (y0 + h)) as [[? ->]|[? ->]];
      destruct (max_spec y0 (y0 + h)) as [[? ->]|[? ->]];
      destruct Hv as [-> | [-> | ->]]; halves; lra.
  - by destruct (min_spec y0 (y0 + h)) as [[? ->]|[? ->]].
  - by destruct (max_spec y0 (y0 + h)) as [[? ->]|[? ->]].
  - exists sh, t, b. by split_and!.
Qed.

Lemma Rectangle_vertical_witness :
  exists sh t b,
    Rectangle_init two_spans 2 (-1 # 4) shape_defaults = Ok sh /\
    top sh = Ok t /\ bottom sh = Ok b /\
    (t == Py.max 2 (2 + (-1 # 4)))%Q /\ (b == Py.min 2 (2 + (-1 # 4)))%Q.
Proof.
  apply (Rectangle_vertical two_spans 2 (-1 # 4) shape_defaults).
  intros H. discriminate H.
Defined.

Lemma Diamond_ys cs y0 h kw sh :
  Diamond_init cs y0 h kw = Ok sh ->
  (forall v, Some v ∈ y sh -> v ∈ [y0; y0 + h / 2; y0 - h / 2]%Q) /\
  Some (y0 + h / 2)%Q ∈ y sh /\ Some (y0 - h / 2)%Q ∈ y sh.
Proof.
  unfold Diamond_init. intros H. bind_inv H. bind_inv H.
  destruct a0 as [xs ys]. injection H as <-. simpl.
  revert E0.
  apply (for_invariant
           (fun s => (forall v, Some v ∈ s.2 -> v ∈ [y0; y0 + h / 2; y0 - h / 2]%Q) /\
                     Some (y0 + h / 2)%Q ∈ s.2 /\ Some (y0 - h / 2)%Q ∈ s.2)).
  - intros i [ax ay] [ax' ay'] _ (Hall & H1 & H2) Hb. simpl in *.
    bind_inv Hb. bind_inv Hb. injection Hb as <- <-.
    split; [|split; apply elem_of_app; left; apply elem_of_app; by left].
    intros v Hv. unfold link_ys, diamond_ys in Hv.
    rewrite !elem_of_app, !elem_of_cons, elem_of_nil in Hv.
    destruct Hv as [[Hv|Hv]|Hv]; [by apply Hall|..];
      destruct_or!; simplify_eq; rewrite !elem_of_cons; auto.
  - simpl. unfold diamond_ys. split; [|split].
    + intros v Hv. rewrite !elem_of_cons, elem_of_nil in Hv.
      destruct_or!; simplify_eq; rewrite !elem_of_cons; auto.
    + right. left.
    + do 3 right. left.
Qed.

(** X7: a diamond is centred on [y]: built on a coordinate list that is not
    empty, its top and its bottom are the larger and the smaller of
    [y + height / 2] and [y - height / 2], whatever the spans. *)
Theorem Diamond_vertical (cs : list span) (y0 h : Q) (kw : shape_kwargs) :
  cs <> [] ->
  exists sh t b,
    Diamond_init cs y0 h kw = Ok sh /\
    top sh = Ok t /\ bottom sh = Ok b /\
    (t == Py.max (y0 + h / 2) (y0 - h / 2))%Q /\
    (b == Py.min (y0 + h / 2) (y0 - h / 2))%Q.
Proof.
  intros Hne. destruct (Diamond_init_ok cs y0 h kw Hne) as [sh Hsh].
  destruct (Diamond_ys _ _ _ _ _ Hsh) as (Hall & H1 & H2).
  set (u := (y0 + h / 2)%Q) in *. set (d := (y0 - h / 2)%Q) in *.
  destruct (extremes_of (y sh) (Py.min u d) (Py.max u d))
    as (t & b & Ht & Hb & Et & Eb).
  - intros v Hv. apply Hall, elem_of_list3 in Hv. subst u d.
    destruct (min_spec (y0 + h / 2) (y0 - h / 2)) as [[? ->]|[? ->]];
      destruct (max_spec (y0 + h / 2) (y0 - h / 2)) as [[? ->]|[? ->]];
      destruct Hv as [-> | [-> | ->]]; halves; lra.
  - by destruct (min_spec u d) as [[? ->]|[? ->]].
  - by destruct (max_spec u d) as [[? ->]|[? ->]].
  - exists sh, t, b. by split_and!.
Qed.

Lemma Diamond_vertical_witness :
  exists sh t b,
    Diamond_init two_spans 2 (1 # 4) shape_defaults = Ok sh /\
    top sh = Ok t /\ bottom sh = Ok b /\
    (t == Py.max (2 + (1 # 4) / 2) (2 - (1 # 4) / 2))%Q /\
    (b == Py.min (2 + (1 # 4) / 2) (2 - (1 # 4) / 2))%Q.
Proof.
  apply (Diamond_vertical two_spans 2 (1 # 4) shape_defaults).
  intros H. discriminate H.
Defined.

Lemma elem_of_map_Some (v : Q) (l : list Q) : Some v ∈ map Some l <-> v ∈ l.
Proof.
  rewrite list_elem_of_fmap. split.
  - by intros (u & [= ->] & Hu).
  - intros H. by exists v.
Qed.

(** What the [y] array of an arrow holds: the values of the rectangles and
    links of its body, then those of its head. *)
Lemma Arrow_ys cs y0 h w r kw sh :
  Arrow_init cs y0 h w r kw = Ok sh ->
  exists body head,
    y sh = body ++ map Some head /\
    (forall v, Some v ∈ body -> v ∈ [y0; y0 + h; y0 + h / 2]%Q) /\
    (forall v, v ∈ head <-> v ∈ arrow_y y0 h (h * w * 2)).
Proof.
  unfold Arrow_init. intros H. bind_inv H. destruct a as [xs ys].
  bind_inv H. bind_inv H. destruct a0 as [xs' ys']. injection H as <-. simpl.
  assert (Hbody : forall v, Some v ∈ ys -> v ∈ [y0; y0 + h; y0 + h / 2]%Q).
  { revert E.
    apply (for_invariant
             (fun s => forall v, Some v ∈ s.2 -> v ∈ [y0; y0 + h; y0 + h / 2]%Q)).
    - intros i [ax ay] [ax' ay'] _ Hall Hb. simpl in *.
      bind_inv Hb. bind_inv Hb. injection Hb as <- <-.
      intros v Hv. unfold link_ys, rect_ys in Hv.
      rewrite !elem_of_app, !elem_of_cons, elem_of_nil in Hv.
      destruct Hv as [[Hv|Hv]|Hv]; [by apply Hall|..];
        destruct_or!; simplify_eq; rewrite !elem_of_cons; auto.
    - simpl. intros v Hv. by apply elem_of_nil in Hv. }
  destruct r; cbn [negb] in E1.
  - bind_inv E1. injection E1 as <- <-.
    exists ys, (rev (arrow_y y0 h (h * w * 2))). split; [done|].
    split; [done|]. intros v. apply elem_of_rev.
  - injection E1 as <- <-.
    exists ys, (arrow_y y0 h (h * w * 2)). done.
Qed.

(** X8: the head of an arrow sticks out above and below its body. Built on a
    coordinate list that is not empty with [height >= 0] and
    [arrow_head_w >= 0], reversed or not, an arrow has its bottom at
    [y - hh] and its top at [y + height + hh], where [hh] is
    [height * arrow_head_w * 2]. *)
Theorem Arrow_vertical (cs : list span) (y0 h w : Q) (r : bool) (kw : shape_kwargs) :
  cs <> [] -> (0 <= h)%Q -> (0 <= w)%Q ->
  exists sh t b,
    Arrow_init cs y0 h w r kw = Ok sh /\
    top sh = Ok t /\ bottom sh = Ok b /\
    (t == y0 + h + h * w * 2)%Q /\ (b == y0 - h * w * 2)%Q.
Proof.
  intros Hne Hh Hw. destruct (Arrow_init_ok cs y0 h w r kw Hne) as [sh Hsh].
  destruct (Arrow_ys _ _ _ _ _ _ _ Hsh) as (body & head & Hy & Hbody & Hhead).
  assert (Hhw : (0 <= h * w)%Q) by (by apply Qmult_le_0_compat).
  set (hh := (h * w * 2)%Q) in *.
  assert (Ehh : (hh == 2 * (h * w))%Q) by (subst hh; ring).
  destruct (extremes_of (y sh) (y0 - hh) (y0 + h + hh))
    as (t & b & Ht & Hb & Et & Eb).
  - intros v Hv. rewrite Hy in Hv. apply elem_of_app in Hv as [Hv|Hv].
    + apply Hbody, elem_of_list3 in Hv.
      destruct Hv as [-> | [-> | ->]]; halves; lra.
    + apply elem_of_map_Some, Hhead in Hv. unfold arrow_y in Hv.
      rewrite !elem_of_cons, elem_of_nil in Hv.
      destruct_or!; subst v; halves; lra.
  - rewrite Hy. apply elem_of_app. right. apply elem_of_map_Some, Hhead.
    unfold arrow_y. do 2 right. left.
  - rewrite Hy. apply elem_of_app. right. apply elem_of_map_Some, Hhead.
    unfold arrow_y. do 4 right. left.
  - exists sh, t, b. by split_and!.
Qed.

Lemma Arrow_vertical_witness :
  exists sh t b,
    Arrow_init two_spans 0 (1 # 4) (1 # 10) true shape_defaults = Ok sh /\
    top sh = Ok t /\ bottom sh = Ok b /\
    (t == 0 + (1 # 4) + (1 # 4) * (1 # 10) * 2)%Q /\
    (b == 0 - (1 # 4) * (1 # 10) * 2)%Q.
Proof.
  apply (Arrow_vertical two_spans 0 (1 # 4) (1 # 10) true shape_defaults).
  - intros H. discriminate H.
  - discriminate.
  - discriminate.
Defined.

(** ** Removing traces *)

Lemma comprehension_lookup {A B} (f : A -> result B) (l : list A) (r : list B) :
  comprehension f l = Ok r ->
  length r = length l /\
  (forall i a, l !! i = Some a -> exists b, f a = Ok b /\ r !! i = Some b).
Proof.
  revert r. induction l as [|a l IH]; intros r H; simpl in H.
  - injection H as <-. split; [done|]. intros i a Hi. by destruct i.
  - bind_inv H. bind_inv H. injection H as <-.
    destruct (IH _ eq_refl) as [Hlen Hl]. split; [simpl; by rewrite Hlen|].
    intros [|i] c Hi; simpl in *.
    + injection Hi as <-. eauto.
    + by apply Hl.
Qed.

Lemma comprehension_all {A B} (f : A -> result B) (l : list A) :
  Forall (fun a => exists b, f a = Ok b) l -> exists r, comprehension f l = Ok r.
Proof.
  induction 1 as [|a l [b Hb] _ [r IH]]; simpl; [eauto|].
  rewrite Hb. simpl. rewrite IH. simpl. eauto.
Qed.

Lemma comprehension_Forall {A B} (f : A -> result B) (l : list A) (r : list B) :
  comprehension f l = Ok r -> Forall (fun a => exists b, f a = Ok b) l.
Proof.
  intros [_ H]%comprehension_lookup. apply Forall_lookup. intros i a Hi.
  destruct (H i a Hi) as (b & Hb & _). eauto.
Qed.

(** [list_index] finds the first position that holds the title. *)
Lemma list_index_spec (titles : list val1) (title : option string) :
  match list_index titles title with
  | Ok z =>
      exists i : nat,
        z = Z.of_nat i /\ titles !! i = Some (title_val title) /\
        (forall j, (j < i)%nat -> titles !! j <> Some (title_val title))
  | Raise e => e = ValueError "is not in list" /\ title_val title ∉ titles
  end.
Proof.
  induction titles as [|t titles IH]; simpl.
  - split; [done|]. apply not_elem_of_nil.
  - destruct (decide (t = title_val title)) as [->|Hne].
    + rewrite bool_decide_eq_true_2 by done. exists 0%nat.
      split; [done|]. split; [done|]. intros j Hj. lia.
    + rewrite bool_decide_eq_false_2 by done.
      destruct (list_index titles title) as [z|e]; simpl.
      * destruct IH as (i & -> & Hi & Hfirst). exists (S i).
        split; [lia|]. split; [done|].
        intros [|j] Hj; simpl; [congruence|]. apply Hfirst. lia.
      * destruct IH as [-> Hnot]. split; [done|].
        apply not_elem_of_cons. done.
Qed.

Lemma list_pop_nat {A} (l : list A) (i : nat) (a : A) :
  l !! i = Some a -> list_pop l (Z.of_nat i) = Ok (a, delete i l).
Proof.
  intros H. unfold list_pop.
  assert (index l (Z.of_nat i) = Ok a) as ->
    by (apply index_in_range; [lia | by rewrite Nat2Z.id]).
  simpl. replace (Z.of_nat i <? 0) with false by (symmetry; apply Z.ltb_ge; lia).
  by rewrite Nat2Z.id.
Qed.

(** X11: when the title is among the names of the traces, [pop_trace] takes
    out the first trace of that name and returns it; the other traces keep
    their order, and no warning is issued. *)
Theorem pop_trace_first (d : Drawable) (title : option string)
    (titles : list val1) (i : nat) :
  get_trace_titles d = Ok titles ->
  titles !! i = Some (title_val title) ->
  (forall j, (j < i)%nat -> titles !! j <> Some (title_val title)) ->
  exists tr,
    traces d !! i = Some tr /\
    tr !! "name" = Some (title_val title) /\
    pop_trace title d
    = Ok {| returned := Some tr;
            after := set_traces (delete i (traces d)) d;
            warned := [] |}.
Proof.
  intros Ht Hi Hfirst. unfold get_trace_titles in Ht.
  destruct (comprehension_lookup _ _ _ Ht) as [Hlen Hl].
  destruct (traces d !! i) as [tr|] eqn:Htr.
  2: { apply lookup_ge_None in Htr. apply lookup_lt_Some in Hi. lia. }
  destruct (Hl i tr Htr) as (v & Hv & Hv').
  assert (v = title_val title) as -> by congruence.
  exists tr. split; [done|]. split.
  { unfold trace_attr in Hv. by destruct (tr !! "name"); simplify_eq. }
  unfold pop_trace, get_trace_titles. rewrite Ht. simpl.
  pose proof (list_index_spec titles title) as Hspec.
  destruct (list_index titles title) as [z|e].
  - destruct Hspec as (k & -> & Hk & Hkfirst).
    assert (k = i) as ->.
    { destruct (Nat.lt_trichotomy k i) as [Hlt|[->|Hgt]]; [|done|].
      - by apply Hfirst in Hlt.
      - by apply Hkfirst in Hgt. }
    by rewrite (list_pop_nat _ _ _ Htr).
  - destruct Hspec as [_ Hnot]. exfalso. apply Hnot.
    by eapply list_elem_of_lookup_2.
Qed.

Lemma pop_trace_first_witness :
  exists tr,
    traces (add_traces [named_trace "a"; named_trace "b"; named_trace "a"]
              Drawable_default) !! 0%nat = Some tr /\
    tr !! "name" = Some (title_val (Some "a")) /\
    pop_trace (Some "a")
      (add_traces [named_trace "a"; named_trace "b"; named_trace "a"]
         Drawable_default)
    = Ok {| returned := Some tr;
            after := set_traces
                       (delete 0%nat
                          (traces (add_traces [named_trace "a"; named_trace "b";
                                               named_trace "a"] Drawable_default)))
                       (add_traces [named_trace "a"; named_trace "b";
                                    named_trace "a"] Drawable_default);
            warned := [] |}.
Proof.
  apply (pop_trace_first _ (Some "a")
           [V1 (VStr "a"); V1 (VStr "b"); V1 (VStr "a")] 0).
  - reflexivity.
  - reflexivity.
  - intros j Hj. lia.
Defined.

(** Whatever the title, [pop_trace] succeeds on a drawable whose traces all
    have a name, and leaves a sublist of them, at most one trace shorter. *)
Lemma pop_trace_sublist (d : Drawable) (title : option string) (titles : list val1) :
  get_trace_titles d = Ok titles ->
  exists o titles',
    pop_trace title d = Ok o /\
    get_trace_titles (after o) = Ok titles' /\
    traces (after o) `sublist_of` traces d /\
    (length (traces d) <= length (traces (after o)) + 1)%nat /\
    d_layout (after o) = d_layout d.
Proof.
  intros Ht. pose proof (list_index_spec titles title) as Hspec.
  destruct (list_index titles title) as [z|e] eqn:Hidx.
  - destruct Hspec as (i & -> & Hi & Hfirst).
    destruct (pop_trace_first d title titles i Ht Hi Hfirst) as (tr & Htr & _ & ->).
    assert (Hsub : delete i (traces d) `sublist_of` traces d)
      by apply sublist_delete.
    destruct (comprehension_all (fun tr => trace_attr tr "name")
                (delete i (traces d))) as [titles' Ht'].
    { apply Forall_forall. intros tr' Hin.
      eapply elem_of_sublist in Hin; [|exact Hsub].
      pose proof (comprehension_Forall _ _ _ Ht) as Hall.
      rewrite Forall_forall in Hall. by apply Hall. }
    eexists _, titles'. split; [reflexivity|]. simpl.
    split; [exact Ht'|]. split; [done|]. split; [|done].
    rewrite length_delete by (by rewrite Htr). lia.
  - destruct Hspec as [-> Hnot].
    rewrite (pop_trace_absent d title titles Ht Hnot).
    eexists _, titles. split; [reflexivity|]. simpl.
    split; [done|]. split; [done|]. split; [lia|done].
Qed.

(** X12: [remove_traces] on a drawable all of whose traces have a name. If
    the drawable has no trace and no [_build_fig], the call raises an
    [AttributeError] (whatever the names, even none). Otherwise it succeeds:
    names that no trace has are skipped silently, what is left is a sublist
    of the traces in their order, at most one trace is removed for each name
    given, and the layout is not touched. *)
Theorem remove_traces_sublist (build : option (Drawable -> result Drawable))
    (names : names_arg) (d : Drawable) (titles : list val1) :
  get_trace_titles d = Ok titles ->
  (traces d = [] -> remove_traces None names d = Raise AttributeError) /\
  (traces d <> [] ->
   exists d',
     remove_traces build names d = Ok d' /\
     traces d' `sublist_of` traces d /\
     (length (traces d)
      <= length (traces d')
         + length (match names with OneName s => [Some s] | Names l => l end))%nat /\
     d_layout d' = d_layout d).
Proof.
  intros Ht. split.
  - intros Hnil. unfold remove_traces. by rewrite Hnil.
  - intros Hne. unfold remove_traces.
    destruct (traces d) as [|t0 ts] eqn:Htr; [done|]. rewrite <- Htr. clear Htr Hne.
    cbn [mbind result_bind Py.bind].
    generalize (match names with OneName s => [Some s] | Names l => l end).
    intros l. revert d titles Ht.
    induction l as [|n l IH]; intros d titles Ht; simpl.
    + exists d. split; [done|]. split; [done|]. split; [lia|done].
    + destruct (pop_trace_sublist d n titles Ht)
        as (o & titles' & -> & Ht' & Hsub & Hlen & Hlay).
      cbn [mbind result_bind Py.bind].
      destruct (IH (after o) titles' Ht') as (d' & -> & Hsub' & Hlen' & Hlay').
      exists d'. split; [done|]. split; [by etrans|]. split; [lia|congruence].
Qed.

Lemma remove_traces_sublist_witness :
  (traces (add_traces [named_trace "a"; named_trace "b"; named_trace "a"]
             Drawable_default) = [] ->
   remove_traces None (Names [Some "a"; Some "z"])
     (add_traces [named_trace "a"; named_trace "b"; named_trace "a"]
        Drawable_default) = Raise AttributeError) /\
  (traces (add_traces [named_trace "a"; named_trace "b"; named_trace "a"]
             Drawable_default) <> [] ->
   exists d',
     remove_traces None (Names [Some "a"; Some "z"])
       (add_traces [named_trace "a"; named_trace "b"; named_trace "a"]
          Drawable_default) = Ok d' /\
     traces d' `sublist_of`
       traces (add_traces [named_trace "a"; named_trace "b"; named_trace "a"]
                 Drawable_default) /\
     (length (traces (add_traces [named_trace "a"; named_trace "b";
                                  named_trace "a"] Drawable_default))
      <= length (traces d') + length [Some "a"; Some "z"])%nat /\
     d_layout d'
     = d_layout (add_traces [named_trace "a"; named_trace "b"; named_trace "a"]
                   Drawable_default)).
Proof.
  apply (remove_traces_sublist None (Names [Some "a"; Some "z"]) _
           [V1 (VStr "a"); V1 (VStr "b"); V1 (VStr "a")]).
  reflexivity.
Defined.

(** ** More about [make_shape] *)

(** X13: what [make_shape] does with arguments it cannot use. An empty
    coordinate list is an [IndexError] for every [type_] that is not a
    feature; a [type_] left at [None] with coordinates is an
    [AttributeError] (of [type_.lower()]); and a feature whose map is not
    useful gives [None], no shape and no error. *)
Theorem make_shape_unusable (name_ : option string) (kwargs : make_kwargs)
    (cs : list span) (f : Annotatable) :
  cs <> [] ->
  make_shape TyNone name_ (Some []) kwargs = Raise IndexError /\
  (forall s, make_shape (TyStr s) name_ (Some []) kwargs = Raise IndexError) /\
  make_shape TyNone name_ (Some cs) kwargs = Raise AttributeError /\
  (map_useful f = false ->
   forall coords, make_shape (TyFeature f) name_ coords kwargs = Ok None).
Proof.
  intros Hne. split; [done|]. split; [done|]. split.
  - unfold make_shape. simpl.
    destruct (index_is_ok cs 0) as [c0 ->].
    { destruct cs; [done|]. simpl. lia. }
    destruct (index_is_ok cs (-1)) as [cl ->].
    { destruct cs; [done|]. simpl. lia. }
    done.
  - intros Hu coords. unfold make_shape. by rewrite Hu.
Qed.

Lemma make_shape_unusable_witness :
  make_shape TyNone (Some "n") (Some []) no_kwargs = Raise IndexError /\
  (forall s, make_shape (TyStr s) (Some "n") (Some []) no_kwargs = Raise IndexError) /\
  make_shape TyNone (Some "n") (Some two_spans) no_kwargs = Raise AttributeError /\
  (map_useful {| map_useful := false; feature_name := None;
                 map_coordinates := []; covering_span_reverse := false;
                 feature_type := Some "gene" |} = false ->
   forall coords,
     make_shape (TyFeature {| map_useful := false; feature_name := None;
                              map_coordinates := []; covering_span_reverse := false;
                              feature_type := Some "gene" |})
       (Some "n") coords no_kwargs = Ok None).
Proof.
  apply (make_shape_unusable (Some "n") no_kwargs two_spans). intros H. discriminate H.
Defined.

Ltac split_pairs :=
  repeat match goal with p : (_ * _)%type |- _ => destruct p end.

Lemma Rectangle_labelled cs y0 h kw sh :
  Rectangle_init cs y0 h kw = Ok sh -> labelled kw sh.
Proof.
  unfold Rectangle_init. intros H. bind_inv H. bind_inv H.
  split_pairs. by injection H as <-.
Qed.

Lemma Diamond_labelled cs y0 h kw sh :
  Diamond_init cs y0 h kw = Ok sh -> labelled kw sh.
Proof.
  unfold Diamond_init. intros H. bind_inv H. bind_inv H.
  split_pairs. by injection H as <-.
Qed.

Lemma Arrow_labelled cs y0 h w r kw sh :
  Arrow_init cs y0 h w r kw = Ok sh -> labelled kw sh.
Proof.
  unfold Arrow_init. intros H. bind_inv H. split_pairs.
  bind_inv H. bind_inv H. split_pairs. by injection H as <-.
Qed.

Lemma make_shape_build_labelled type_ name_ coords reverse kwargs sh :
  make_shape_build type_ name_ coords reverse kwargs = Ok sh ->
  name sh = type_ /\ text sh = name_ /\ _legendgroup sh = type_.
Proof.
  unfold make_shape_build. intros H. bind_inv H. cbv zeta in H.
  match type of H with
  | context [default Rectangle ?k] => destruct (default Rectangle k)
  end; simpl in H.
  - destruct coords as [cs|]; [|done].
    destruct (mk_arrow_head_w kwargs); [done|].
    apply Rectangle_labelled in H as (? & ? & ? & ?). done.
  - destruct coords as [cs|]; [|done].
    destruct (mk_arrow_head_w kwargs); [done|].
    apply Diamond_labelled in H as (? & ? & ? & ?). done.
  - destruct coords as [cs|]; [|done].
    apply Arrow_labelled in H as (? & ? & ? & ?). done.
  - bind_inv H. bind_inv H.
    destruct (mk_y kwargs), (mk_height kwargs), (mk_arrow_head_w kwargs);
      try done.
    by injection H as <-.
Qed.

Lemma make_shape_labelled t name_ coords kwargs sh :
  make_shape (TyStr t) name_ coords kwargs = Ok (Some sh) ->
  name sh = Some t /\ text sh = name_ /\ _legendgroup sh = Some t.
Proof.
  unfold make_shape. intros H. bind_inv H. bind_inv H. bind_inv H.
  destruct (make_shape_build _ _ _ _ _) as [sh'|] eqn:Hb; [|done].
  simpl in H. injection H as <-. by eapply make_shape_build_labelled.
Qed.

Lemma get_trace_titles_add (d : Drawable) (tr : gmap string val1) titles v :
  get_trace_titles d = Ok titles -> tr !! "name" = Some v ->
  get_trace_titles (add_trace tr d) = Ok (titles ++ [v]).
Proof.
  unfold get_trace_titles, add_trace. simpl. unfold traces. simpl.
  generalize (_traces d). intros l. revert titles.
  induction l as [|a l IH]; intros titles H Hv; simpl in *.
  - injection H as <-. unfold trace_attr. by rewrite Hv.
  - bind_inv H. bind_inv H. injection H as <-.
    by rewrite (IH _ eq_refl Hv).
Qed.

(** X14: a shape made by [make_shape] goes into a drawable and comes out
    again under its feature type. The trace [as_trace()] of the shape that
    [make_shape] returns for the type [t] carries the [x] and [y] of the
    shape, is named [t] and is in the legend group [t]; and once added to a
    drawable in which no trace has that name, [pop_trace(t)] returns this
    very trace and leaves the drawable as it was before. *)
Theorem make_shape_trace_round_trip (t : string) (name_ : option string)
    (coords : option (list span)) (kwargs : make_kwargs) (sh : Shape)
    (d : Drawable) (titles : list val1) :
  make_shape (TyStr t) name_ coords kwargs = Ok (Some sh) ->
  get_trace_titles d = Ok titles ->
  V1 (VStr t) ∉ titles ->
  trace_coords (as_trace None sh) "x" = Ok (x sh) /\
  trace_coords (as_trace None sh) "y" = Ok (y sh) /\
  as_trace None sh !! "name" = Some (V1 (VStr t)) /\
  as_trace None sh !! "legendgroup" = Some (V1 (VStr t)) /\
  pop_trace (Some t) (add_trace (as_trace None sh) d)
  = Ok {| returned := Some (as_trace None sh); after := d; warned := [] |}.
Proof.
  intros Hsh Ht Hnot.
  destruct (make_shape_labelled _ _ _ _ _ Hsh) as (Hn & _ & Hg).
  assert (Hname : as_trace None sh !! "name" = Some (V1 (VStr t))).
  { unfold as_trace. rewrite Hn. reflexivity. }
  split; [reflexivity|]. split; [reflexivity|]. split; [exact Hname|].
  split; [unfold as_trace; rewrite Hg; reflexivity|].
  pose proof (get_trace_titles_add d _ _ _ Ht Hname) as Ht'.
  assert (Hlen : length titles = length (_traces d)).
  { unfold get_trace_titles in Ht. by apply comprehension_lookup in Ht as [? _]. }
  unfold pop_trace. rewrite Ht'. cbn [mbind result_bind Py.bind].
  pose proof (list_index_spec (titles ++ [V1 (VStr t)]) (Some t)) as Hspec.
  destruct (list_index (titles ++ [V1 (VStr t)]) (Some t)) as [z|e].
  - destruct Hspec as (k & -> & Hk & _).
    assert (k = length titles) as ->.
    { destruct (decide (k < length titles)%nat) as [Hlt|Hge].
      - rewrite lookup_app_l in Hk by done. exfalso. apply Hnot.
        by eapply list_elem_of_lookup_2.
      - apply lookup_lt_Some in Hk. rewrite length_app in Hk. simpl in Hk. lia. }
    rewrite (list_pop_nat _ _ (as_trace None sh)).
    + cbn [mbind result_bind Py.bind]. f_equal. unfold add_trace, traces. simpl.
      rewrite Hlen, delete_middle, app_nil_r. by destruct d.
    + unfold add_trace, traces. simpl.
      by rewrite Hlen, lookup_app_r, Nat.sub_diag by lia.
  - destruct Hspec as [_ Hno]. exfalso. apply Hno.
    apply elem_of_app. right. by apply list_elem_of_singleton.
Qed.

Lemma make_shape_trace_round_trip_witness :
  make_shape (TyStr "Gene") (Some "abc") (Some two_spans) no_kwargs
  = Ok (Some example_gene) /\
  trace_coords (as_trace None example_gene) "x" = Ok (x example_gene) /\
  trace_coords (as_trace None example_gene) "y" = Ok (y example_gene) /\
  as_trace None example_gene !! "name" = Some (V1 (VStr "Gene")) /\
  as_trace None example_gene !! "legendgroup" = Some (V1 (VStr "Gene")) /\
  pop_trace (Some "Gene")
    (add_trace (as_trace None example_gene)
       (add_trace (named_trace "a") Drawable_default))
  = Ok {| returned := Some (as_trace None example_gene);
          after := add_trace (named_trace "a") Drawable_default;
          warned := [] |}.
Proof.
  split; [reflexivity|].
  apply (make_shape_trace_round_trip "Gene" (Some "abc") (Some two_spans)
           no_kwargs example_gene _ [V1 (VStr "a")]).
  - reflexivity.
  - reflexivity.
  - intros H. apply list_elem_of_singleton in H. discriminate H.
Defined.

(** ** The traces of the tracks *)

Lemma track_step_inv f pre tr seen m acc st :
  track_step f pre tr (seen, m, acc) = Ok st ->
  exists g m',
    legend_group (pre tr) = Some (V1 g) /\
    st = (g :: seen, m',
          acc ++ [if bool_decide (g ∈ seen)
                  then <["showlegend" := V1 (VBool false)]> (pre tr)
                  else pre tr]).
Proof.
  unfold track_step. intros H. bind_inv H. bind_inv H. bind_inv H.
  unfold trace_attr in *. unfold legend_group.
  destruct (pre tr !! "legendgroup") as [v|]; [|done].
  match goal with E : Ok v = Ok _ |- _ => injection E as -> end.
  match type of H with context [match ?v with V1 _ => _ | D1 _ => _ end] =>
    destruct v as [g|]; [|done] end.
  injection H as <-. eauto.
Qed.

(** A track loop appends one trace for each trace of the track; the trace is
    hidden from the legend when its group has been seen. *)
Lemma track_loop_traces f (pre : gmap string val1 -> gmap string val1) :
  (forall tr, legend_group (pre tr) = legend_group tr) ->
  (forall tr, pre tr !! "showlegend" = tr !! "showlegend") ->
  forall l seen m acc seen' m' out (before : list (gmap string val1)),
    (forall g, g ∈ seen <-> Some (V1 g) ∈ map legend_group before) ->
    for_ l (track_step f pre) (seen, m, acc) = Ok (seen', m', out) ->
    exists news,
      out = acc ++ news /\ length news = length l /\
      (forall g, g ∈ seen' <-> Some (V1 g) ∈ map legend_group (before ++ l)) /\
      forall (j : nat) tr, l !! j = Some tr ->
        exists tr',
          news !! j = Some tr' /\
          tr' !! "showlegend" = legend_of (before ++ take j l) tr /\
          same_but ["showlegend"] (pre tr) tr'.
Proof.
  intros Hg Hs. induction l as [|a l IH]; intros seen m acc seen' m' out before Hseen H.
  - simpl in H. injection H as <- <- <-. exists []. rewrite !app_nil_r.
    split; [done|]. split; [done|]. split; [done|]. intros j tr Hj. by destruct j.
  - simpl in H. bind_inv H.
    apply track_step_inv in E as (g & m1 & Hgrp & ->). rewrite Hg in Hgrp.
    set (tr1 := if bool_decide (g ∈ seen)
                then <["showlegend" := V1 (VBool false)]> (pre a) else pre a) in *.
    destruct (IH (g :: seen) m1 (acc ++ [tr1]) seen' m' out (before ++ [a]))
      as (news & -> & Hlen & Hseen' & Hnews); [|exact H|].
    { intros g'. rewrite map_app, elem_of_app, elem_of_cons, Hseen. simpl.
      rewrite list_elem_of_singleton, Hgrp. split; intros [?|?]; auto; simplify_eq; auto. }
    exists (tr1 :: news). rewrite <- app_assoc. split; [done|].
    split; [simpl; by rewrite Hlen|]. split.
    { intros g'. rewrite Hseen', <- app_assoc. done. }
    intros [|j] tr Hj; simpl in Hj.
    + injection Hj as <-. exists tr1. split; [done|]. simpl. rewrite app_nil_r.
      unfold legend_of, tr1. rewrite Hgrp.
      destruct (decide (g ∈ seen)) as [Hin|Hin].
      * rewrite bool_decide_eq_true_2 by done.
        rewrite bool_decide_eq_true_2 by by apply Hseen.
        split; [by rewrite lookup_insert_eq|].
        intros k Hk. apply lookup_insert_ne. intros <-. apply Hk. by left.
      * rewrite bool_decide_eq_false_2 by done.
        rewrite bool_decide_eq_false_2 by (by rewrite <- Hseen).
        split; [apply Hs|]. by intros k Hk.
    + destruct (Hnews j tr Hj) as (tr' & Htr' & Hl & Hsame).
      exists tr'. split; [done|]. split; [|done].
      simpl. by rewrite <- app_assoc in Hl.
Qed.

Lemma fig_data_figure (ts : list (gmap string val1)) (l : gmap string val2) :
  fig_data (UnionDict_figure ts l) = Ok ts.
Proof. reflexivity. Qed.

Lemma build_2x2_loops self f self' :
  _build_2x2_fig self = Ok (f, self') ->
  exists lt bt seen mx ltr seen' my ts,
    track_traces (left_track self) = Ok lt /\
    track_traces (bottom_track self) = Ok bt /\
    for_ lt (track_step "x" id) ([], 0%Q, []) = Ok (seen, mx, ltr) /\
    for_ bt (track_step "y" (fun tr => <["yaxis" := V1 (VStr "y3")]>
                                         (<["xaxis" := V1 (VStr "x3")]> tr)))
      (seen, 0%Q, ltr) = Ok (seen', my, ts) /\
    fig_data f = Ok (traces (ad_base self') ++ ts) /\
    left_track self' = set_traces (take (length ltr) ts) <$> left_track self /\
    bottom_track self' = set_traces (drop (length ltr) ts) <$> bottom_track self.
Proof.
  unfold _build_2x2_fig. intros H.
  bind_inv H. rename a into self1.
  assert (left_track self1 = left_track self /\
          bottom_track self1 = bottom_track self) as [Hlt Hbt].
  { destruct (traces (ad_base self)); [|by injection E as <-].
    destruct (_build_fig "x2" "y2" self) as [[f0 s0]|] eqn:Eb; [|done].
    simpl in E. injection E as <-. by eapply build_fig_tracks. }
  bind_inv H. bind_inv H.
  bind_inv H. rename a1 into lt, E2 into Elt.
  bind_inv H. destruct a1 as [[seen max_x] ltraces]. rename E2 into Eleft.
  bind_inv H. rename a1 into bt, E2 into Ebt.
  bind_inv H. destruct a1 as [[seen' max_y] ts]. rename E2 into Ebottom.
  bind_inv H. bind_inv H.
  destruct (Z.min _ _ =? 0); [discriminate H|].
  do 11 bind_inv H.
  injection H as <- <-.
  exists lt, bt, seen, max_x, ltraces, seen', max_y, ts.
  rewrite <- Hlt, <- Hbt. by rewrite fig_data_figure.
Qed.

Lemma axes_keep_group (a b : string) (tr : gmap string val1) :
  legend_group (<["yaxis" := V1 (VStr a)]> (<["xaxis" := V1 (VStr b)]> tr))
  = legend_group tr.
Proof. unfold legend_group. by rewrite !lookup_insert_ne. Qed.

Lemma axes_keep_legend (a b : string) (tr : gmap string val1) :
  <["yaxis" := V1 (VStr a)]> (<["xaxis" := V1 (VStr b)]> tr) !! "showlegend"
  = tr !! "showlegend".
Proof. by rewrite !lookup_insert_ne. Qed.

(** X15: the traces of the two tracks in the figure of a drawable that has
    both. The figure holds the traces of the drawable and then one trace for
    each trace of the left track and of the bottom track, in that order; the
    tracks hold these very traces afterwards (the traces of the tracks being
    distinct objects). With legend groups that are
    strings or [None], a track trace is hidden from the legend exactly when
    an earlier trace of the two tracks has its legend group, and keeps its
    own [showlegend] otherwise; a trace of the bottom track is put on the
    axes [x3] and [y3]; nothing else of a trace is changed. *)
Theorem figure_2x2_track_traces (self self' : AnnotatedDrawable)
    (f : gmap string figval) (lt bt : list (gmap string val1)) :
  track_traces (left_track self) = Ok lt ->
  track_traces (bottom_track self) = Ok bt ->
  Forall text_group (lt ++ bt) ->
  AnnotatedDrawable_figure self = Ok (f, self') ->
  exists ts,
    fig_data f = Ok (traces (ad_base self') ++ ts) /\
    track_traces (left_track self') = Ok (take (length lt) ts) /\
    track_traces (bottom_track self') = Ok (drop (length lt) ts) /\
    length ts = length (lt ++ bt) /\
    forall (j : nat) tr, (lt ++ bt) !! j = Some tr ->
      exists tr',
        ts !! j = Some tr' /\
        tr' !! "showlegend" = legend_of (take j (lt ++ bt)) tr /\
        ((j < length lt)%nat -> same_but ["showlegend"] tr tr') /\
        ((length lt <= j)%nat ->
         tr' !! "xaxis" = Some (V1 (VStr "x3")) /\
         tr' !! "yaxis" = Some (V1 (VStr "y3")) /\
         same_but ["showlegend"; "xaxis"; "yaxis"] tr tr').
Proof.
  intros Hlt Hbt _ H. unfold AnnotatedDrawable_figure in H.
  destruct (bottom_track self) as [b|] eqn:Eb; [|discriminate Hbt].
  destruct (left_track self) as [l|] eqn:El; [|discriminate Hlt].
  apply build_2x2_loops in H
    as (lt' & bt' & seen & mx & ltr & seen' & my & ts & Hlt' & Hbt' & Hleft &
        Hbottom & Hdata & Hl' & Hb').
  rewrite El in Hlt'. rewrite Eb in Hbt'. rewrite El in Hl'. rewrite Eb in Hb'.
  simpl in Hlt, Hbt, Hlt', Hbt'.
  injection Hlt as <-. injection Hbt as <-. injection Hlt' as <-. injection Hbt' as <-.
  destruct (track_loop_traces "x" id (fun _ => eq_refl) (fun _ => eq_refl)
              _ _ _ _ _ _ _ [] (fun g => conj (fun H => False_ind _ (proj1 (elem_of_nil g) H))
                                              (fun H => False_ind _ (proj1 (elem_of_nil _) H)))
              Hleft)
    as (news1 & -> & Hlen1 & Hseen & Hnews1).
  simpl in *.
  destruct (track_loop_traces "y" _ (axes_keep_group "y3" "x3")
              (axes_keep_legend "y3" "x3") _ _ _ _ _ _ _ (traces l) Hseen Hbottom)
    as (news2 & -> & Hlen2 & _ & Hnews2).
  exists (news1 ++ news2). split; [done|].
  rewrite Hl', Hb'. unfold traces in *. simpl. rewrite <- Hlen1.
  split; [by rewrite take_app_length|]. split; [by rewrite drop_app_length|].
  split; [by rewrite !length_app, Hlen1, Hlen2|].
  intros j tr Hj. destruct (decide (j < length news1)%nat) as [Hlt|Hge].
  - rewrite lookup_app_l in Hj by lia.
    destruct (Hnews1 j tr Hj) as (tr' & Htr' & Hshow & Hsame).
    exists tr'. rewrite lookup_app_l by done. split; [done|].
    rewrite take_app_le by lia. split; [done|]. split; [done|]. lia.
  - rewrite lookup_app_r in Hj by lia.
    destruct (Hnews2 _ tr Hj) as (tr' & Htr' & Hshow & Hsame).
    exists tr'. rewrite lookup_app_r, Hlen1 by lia. split; [done|].
    rewrite take_app_ge by lia. split; [done|]. split; [lia|]. intros _.
    split; [|split].
    + rewrite Hsame by (rewrite list_elem_of_singleton; done).
      rewrite lookup_insert_ne by done. by rewrite lookup_insert_eq.
    + rewrite Hsame by (rewrite list_elem_of_singleton; done).
      by rewrite lookup_insert_eq.
    + intros k Hk. rewrite Hsame.
      * rewrite !lookup_insert_ne; [done|..]; intros <-; apply Hk;
          rewrite !elem_of_cons; auto.
      * intros Hin. apply Hk. apply list_elem_of_singleton in Hin as ->. by left.
Qed.

Lemma figure_2x2_track_traces_witness :
  exists ts,
    fig_data (figure_of example_annotated)
    = Ok (traces (ad_base (after_figure example_annotated)) ++ ts) /\
    track_traces (left_track (after_figure example_annotated))
    = Ok (take (length example_left_traces) ts) /\
    track_traces (bottom_track (after_figure example_annotated))
    = Ok (drop (length example_left_traces) ts) /\
    length ts = length (example_left_traces ++ example_bottom_traces) /\
    forall (j : nat) tr,
      (example_left_traces ++ example_bottom_traces) !! j = Some tr ->
      exists tr',
        ts !! j = Some tr' /\
        tr' !! "showlegend"
        = legend_of (take j (example_left_traces ++ example_bottom_traces)) tr /\
        ((j < length example_left_traces)%nat -> same_but ["showlegend"] tr tr') /\
        ((length example_left_traces <= j)%nat ->
         tr' !! "xaxis" = Some (V1 (VStr "x3")) /\
         tr' !! "yaxis" = Some (V1 (VStr "y3")) /\
         same_but ["showlegend"; "xaxis"; "yaxis"] tr tr').
Proof.
  apply (figure_2x2_track_traces example_annotated (after_figure example_annotated)
           (figure_of example_annotated) example_left_traces example_bottom_traces).
  - reflexivity.
  - reflexivity.
  - repeat apply Forall_cons_2;
      [exists (Some "gene")..|exists (Some "cds")|apply Forall_nil_2]; reflexivity.
  - vm_compute. reflexivity.
Defined.

(** ** The layouts with one track *)

Lemma union1_sets (a d : gmap string val1) k v :
  d !! k = Some (V1 v) -> union1 a d !! k = Some (V1 v).
Proof.
  intros Hd. unfold union1. rewrite lookup_merge, Hd.
  by destruct (a !! k) as [[|]|].
Qed.

Lemma union1_keeps (a d : gmap string val1) k :
  d !! k = None -> union1 a d !! k = a !! k.
Proof.
  intros Hd. unfold union1. rewrite lookup_merge, Hd.
  by destruct (a !! k) as [[|]|].
Qed.

(** After [fig.layout.<k> |= d], the figure has under [k] what [d] has. *)
Lemma axis_ior_attr (ts : list (gmap string val1)) (l : gmap string val2)
    k d l' a v :
  axis_ior l k d = Ok l' -> d !! a = Some (V1 v) ->
  fig_axis_attr (UnionDict_figure ts l') k a = Ok (V1 v).
Proof.
  intros (ax & Hax & ->)%axis_ior_inv Hd.
  unfold fig_axis_attr, fig_layout, UnionDict_figure, get_axis, trace_attr.
  rewrite lookup_insert_ne by done. rewrite lookup_singleton_eq. simpl.
  rewrite lookup_insert_eq. simpl. by rewrite (union1_sets _ _ _ _ Hd).
Qed.

Lemma build_2x1_loops self f self' :
  _build_2x1_fig self = Ok (f, self') ->
  exists bt seen my ts,
    track_traces (bottom_track self) = Ok bt /\
    for_ bt (track_step "y" (fun tr => <["xaxis" := V1 (VStr "x")]>
                                         (<["yaxis" := V1 (VStr "y2")]> tr)))
      ([], 0%Q, []) = Ok (seen, my, ts) /\
    fig_data f = Ok (traces (ad_base self') ++ ts) /\
    fig_axis_attr f "yaxis2" "range" = Ok (range_val (Py.int my + 1)) /\
    left_track self' = left_track self /\
    bottom_track self' = set_traces ts <$> bottom_track self.
Proof.
  unfold _build_2x1_fig. intros H.
  bind_inv H. rename a into self1.
  assert (left_track self1 = left_track self /\
          bottom_track self1 = bottom_track self) as [Hlt Hbt].
  { destruct (traces (ad_base self)); [|by injection E as <-].
    destruct (_build_fig "x" "y" self) as [[f0 s0]|] eqn:Eb; [|done].
    simpl in E. injection E as <-. by eapply build_fig_tracks. }
  bind_inv H. bind_inv H. bind_inv H.
  bind_inv H. rename E3 into Ebt.
  bind_inv H. destruct a3 as [[seen max_y] ts]. rename E3 into Eloop.
  bind_inv H. rename E3 into Eior.
  injection H as <- <-. simpl.
  eexists _, seen, max_y, ts. rewrite <- Hbt, <- Hlt.
  split; [exact Ebt|]. split; [exact Eloop|]. split; [done|].
  split; [|done]. eapply axis_ior_attr; [exact Eior|]. reflexivity.
Qed.

Lemma build_1x2_loops self f self' :
  _build_1x2_fig self = Ok (f, self') ->
  exists lt seen mx ts,
    track_traces (left_track self) = Ok lt /\
    for_ lt (track_step "x" (fun tr => <["yaxis" := V1 (VStr "y")]> tr))
      ([], 0%Q, []) = Ok (seen, mx, ts) /\
    fig_data f = Ok (traces (ad_base self') ++ ts) /\
    fig_axis_attr f "xaxis" "range" = Ok (range_val (Py.int mx + 1)) /\
    left_track self' = set_traces ts <$> left_track self /\
    bottom_track self' = bottom_track self.
Proof.
  unfold _build_1x2_fig. intros H.
  bind_inv H. rename a into self1.
  assert (left_track self1 = left_track self /\
          bottom_track self1 = bottom_track self) as [Hlt Hbt].
  { destruct (traces (ad_base self)); [|by injection E as <-].
    destruct (_build_fig "x2" "y" self) as [[f0 s0]|] eqn:Eb; [|done].
    simpl in E. injection E as <-. by eapply build_fig_tracks. }
  bind_inv H. bind_inv H.
  bind_inv H. rename E2 into Elt.
  bind_inv H. destruct a2 as [[seen max_x] ts]. rename E2 into Eloop.
  bind_inv H. rename E2 into Eior.
  injection H as <- <-. simpl.
  eexists _, seen, max_x, ts. rewrite <- Hbt, <- Hlt.
  split; [exact Elt|]. split; [exact Eloop|]. split; [done|].
  split; [|done]. eapply axis_ior_attr; [exact Eior|]. reflexivity.
Qed.

Lemma same_but_insert (tr tr' : gmap string val1) k v ks :
  same_but ks (<[k := v]> tr) tr' -> same_but (ks ++ [k]) tr tr'.
Proof.
  intros H j Hj. rewrite H, lookup_insert_ne; [done|..].
  - intros <-. apply Hj. apply elem_of_app. right. by left.
  - intros Hin. apply Hj. apply elem_of_app. by left.
Qed.

(** Setting the axes of a trace leaves its other attributes alone. *)
Lemma axes_keep (a b : val1) (tr : gmap string val1) (k : string) :
  k <> "xaxis" -> k <> "yaxis" ->
  <["xaxis" := a]> (<["yaxis" := b]> tr) !! k = tr !! k.
Proof. intros. by rewrite !lookup_insert_ne. Qed.

Lemma yaxis_keeps (b : val1) (tr : gmap string val1) (k : string) :
  k <> "yaxis" -> <["yaxis" := b]> tr !! k = tr !! k.
Proof. intros. by rewrite lookup_insert_ne. Qed.

Lemma build_2x1_track_traces (self self' : AnnotatedDrawable)
    (f : gmap string figval) (bt : list (gmap string val1)) :
  track_traces (bottom_track self) = Ok bt ->
  _build_2x1_fig self = Ok (f, self') ->
  exists ts E,
    fig_data f = Ok (traces (ad_base self') ++ ts) /\
    track_traces (bottom_track self') = Ok ts /\
    left_track self' = left_track self /\
    length ts = length bt /\
    extent_of (track_values "y" bt) E /\
    fig_axis_attr f "yaxis2" "range" = Ok (range_val E) /\
    forall (j : nat) tr, bt !! j = Some tr ->
      exists tr',
        ts !! j = Some tr' /\
        tr' !! "showlegend" = legend_of (take j bt) tr /\
        tr' !! "xaxis" = Some (V1 (VStr "x")) /\
        tr' !! "yaxis" = Some (V1 (VStr "y2")) /\
        same_but ["showlegend"; "xaxis"; "yaxis"] tr tr'.
Proof.
  intros Hbt H.
  destruct (bottom_track self) as [b|] eqn:Eb; [|discriminate Hbt].
  simpl in Hbt. injection Hbt as <-.
  apply build_2x1_loops in H
    as (bt' & seen & my & ts & Hbt' & Hloop & Hdata & Hrange & Hl' & Hb').
  rewrite Eb in Hbt', Hb'. simpl in Hbt'. injection Hbt' as <-.
  destruct (track_loop_traces "y"
              (fun tr => <["xaxis" := V1 (VStr "x")]> (<["yaxis" := V1 (VStr "y2")]> tr))
              (fun tr => axes_keep _ _ tr "legendgroup" ltac:(done) ltac:(done))
              (fun tr => axes_keep _ _ tr "showlegend" ltac:(done) ltac:(done))
              _ _ _ _ _ _ _ []
              (fun g => conj (fun H => False_ind _ (proj1 (elem_of_nil g) H))
                             (fun H => False_ind _ (proj1 (elem_of_nil _) H)))
              Hloop)
    as (news & -> & Hlen & _ & Hnews).
  simpl in *. exists news, (Py.int my + 1).
  split; [done|]. rewrite Hb', Hl'. split; [done|]. split; [done|].
  split; [done|]. split.
  { eapply (track_loop_extent "y"); [|exact Hloop].
    intros tr. unfold trace_coords, trace_attr. by rewrite !lookup_insert_ne. }
  split; [done|].
  intros j tr Hj. destruct (Hnews j tr Hj) as (tr' & Htr' & Hshow & Hsame).
  exists tr'. split; [done|]. split; [done|].
  split; [|split].
  - rewrite Hsame by (rewrite list_elem_of_singleton; done).
    by rewrite lookup_insert_eq.
  - rewrite Hsame by (rewrite list_elem_of_singleton; done).
    rewrite lookup_insert_ne by done. by rewrite lookup_insert_eq.
  - by apply (same_but_insert _ _ "xaxis" _ ["showlegend"]),
             (same_but_insert _ _ "yaxis" _ ["showlegend"; "xaxis"]) in Hsame.
Qed.

(** X16: the figure of a drawable that has a bottom track only. The figure
    holds the traces of the drawable and then one trace for each trace of
    the track, and the track holds these very traces afterwards (the traces
    of the track being distinct objects). Each of
    them is on the axes [x] and [y2]; with legend groups that are strings or
    [None] it is hidden from the legend exactly when an earlier trace of the
    track has its legend group; nothing else of it is changed. The range of
    [yaxis2] runs from 0 to the extent of the track along [y]. *)
Theorem figure_2x1_track_traces (self self' : AnnotatedDrawable)
    (f : gmap string figval) (bt : list (gmap string val1)) :
  left_track self = None ->
  track_traces (bottom_track self) = Ok bt ->
  Forall text_group bt ->
  AnnotatedDrawable_figure self = Ok (f, self') ->
  exists ts E,
    fig_data f = Ok (traces (ad_base self') ++ ts) /\
    track_traces (bottom_track self') = Ok ts /\
    left_track self' = None /\
    length ts = length bt /\
    extent_of (track_values "y" bt) E /\
    fig_axis_attr f "yaxis2" "range" = Ok (range_val E) /\
    forall (j : nat) tr, bt !! j = Some tr ->
      exists tr',
        ts !! j = Some tr' /\
        tr' !! "showlegend" = legend_of (take j bt) tr /\
        tr' !! "xaxis" = Some (V1 (VStr "x")) /\
        tr' !! "yaxis" = Some (V1 (VStr "y2")) /\
        same_but ["showlegend"; "xaxis"; "yaxis"] tr tr'.
Proof.
  intros Hl Hbt _ H. unfold AnnotatedDrawable_figure in H. rewrite Hl in H.
  destruct (bottom_track self) as [b|] eqn:Eb; [|discriminate Hbt].
  rewrite <- Eb in Hbt.
  destruct (build_2x1_track_traces self self' f bt Hbt H)
    as (ts & E & H1 & H2 & H3 & H4). rewrite Hl in H3. eauto 10.
Qed.

Lemma figure_2x1_track_traces_witness :
  exists ts E,
    fig_data (figure_of example_bottom_only)
    = Ok (traces (ad_base (after_figure example_bottom_only)) ++ ts) /\
    track_traces (bottom_track (after_figure example_bottom_only)) = Ok ts /\
    left_track (after_figure example_bottom_only) = None /\
    length ts = length example_bottom_traces /\
    extent_of (track_values "y" example_bottom_traces) E /\
    fig_axis_attr (figure_of example_bottom_only) "yaxis2" "range"
    = Ok (range_val E) /\
    forall (j : nat) tr, example_bottom_traces !! j = Some tr ->
      exists tr',
        ts !! j = Some tr' /\
        tr' !! "showlegend" = legend_of (take j example_bottom_traces) tr /\
        tr' !! "xaxis" = Some (V1 (VStr "x")) /\
        tr' !! "yaxis" = Some (V1 (VStr "y2")) /\
        same_but ["showlegend"; "xaxis"; "yaxis"] tr tr'.
Proof.
  apply (figure_2x1_track_traces example_bottom_only
           (after_figure example_bottom_only) (figure_of example_bottom_only)
           example_bottom_traces).
  - reflexivity.
  - reflexivity.
  - apply Forall_cons_2; [exists (Some "cds"); reflexivity | apply Forall_nil_2].
  - vm_compute. reflexivity.
Defined.

(** X17: the figure of a drawable that has a left track only. The figure
    holds the traces of the drawable and then one trace for each trace of
    the track, and the track holds these very traces afterwards (the traces
    of the track being distinct objects). Each of
    them is on the axis [y] and keeps its [xaxis]; with legend groups that
    are strings or [None] it is hidden from the legend exactly when an
    earlier trace of the track has its legend group; nothing else of it is
    changed. The range of [xaxis] runs from 0 to the extent of the track
    along [x]. *)
Theorem figure_1x2_track_traces (self self' : AnnotatedDrawable)
    (f : gmap string figval) (lt : list (gmap string val1)) :
  bottom_track self = None ->
  track_traces (left_track self) = Ok lt ->
  Forall text_group lt ->
  AnnotatedDrawable_figure self = Ok (f, self') ->
  exists ts E,
    fig_data f = Ok (traces (ad_base self') ++ ts) /\
    track_traces (left_track self') = Ok ts /\
    bottom_track self' = None /\
    length ts = length lt /\
    extent_of (track_values "x" lt) E /\
    fig_axis_attr f "xaxis" "range" = Ok (range_val E) /\
    forall (j : nat) tr, lt !! j = Some tr ->
      exists tr',
        ts !! j = Some tr' /\
        tr' !! "showlegend" = legend_of (take j lt) tr /\
        tr' !! "yaxis" = Some (V1 (VStr "y")) /\
        same_but ["showlegend"; "yaxis"] tr tr'.
Proof.
  intros Hb Hlt _ H. unfold AnnotatedDrawable_figure in H. rewrite Hb in H.
  destruct (left_track self) as [l|] eqn:El; [|discriminate Hlt].
  simpl in Hlt. injection Hlt as <-.
  apply build_1x2_loops in H
    as (lt' & seen & mx & ts & Hlt' & Hloop & Hdata & Hrange & Hl' & Hb').
  rewrite El in Hlt', Hl'. simpl in Hlt'. injection Hlt' as <-.
  destruct (track_loop_traces "x" (fun tr => <["yaxis" := V1 (VStr "y")]> tr)
              (fun tr => yaxis_keeps _ tr "legendgroup" ltac:(done))
              (fun tr => yaxis_keeps _ tr "showlegend" ltac:(done))
              _ _ _ _ _ _ _ []
              (fun g => conj (fun H => False_ind _ (proj1 (elem_of_nil g) H))
                             (fun H => False_ind _ (proj1 (elem_of_nil _) H)))
              Hloop)
    as (news & -> & Hlen & _ & Hnews).
  simpl in *. exists news, (Py.int mx + 1).
  split; [done|]. rewrite Hb', Hl', Hb. split; [done|]. split; [done|].
  split; [done|]. split.
  { eapply (track_loop_extent "x"); [|exact Hloop].
    intros tr. unfold trace_coords, trace_attr. by rewrite !lookup_insert_ne. }
  split; [done|].
  intros j tr Hj. destruct (Hnews j tr Hj) as (tr' & Htr' & Hshow & Hsame).
  exists tr'. split; [done|]. split; [done|]. split.
  - rewrite Hsame by (rewrite list_elem_of_singleton; done).
    by rewrite lookup_insert_eq.
  - by apply (same_but_insert _ _ "yaxis" _ ["showlegend"]) in Hsame.
Qed.

Lemma figure_1x2_track_traces_witness :
  exists ts E,
    fig_data (figure_of example_left_only)
    = Ok (traces (ad_base (after_figure example_left_only)) ++ ts) /\
    track_traces (left_track (after_figure example_left_only)) = Ok ts /\
    bottom_track (after_figure example_left_only) = None /\
    length ts = length example_left_traces /\
    extent_of (track_values "x" example_left_traces) E /\
    fig_axis_attr (figure_of example_left_only) "xaxis" "range"
    = Ok (range_val E) /\
    forall (j : nat) tr, example_left_traces !! j = Some tr ->
      exists tr',
        ts !! j = Some tr' /\
        tr' !! "showlegend" = legend_of (take j example_left_traces) tr /\
        tr' !! "yaxis" = Some (V1 (VStr "y")) /\
        same_but ["showlegend"; "yaxis"] tr tr'.
Proof.
  apply (figure_1x2_track_traces example_left_only
           (after_figure example_left_only) (figure_of example_left_only)
           example_left_traces).
  - reflexivity.
  - reflexivity.
  - repeat apply Forall_cons_2; [exists (Some "gene")..|apply Forall_nil_2];
      reflexivity.
  - vm_compute. reflexivity.
Defined.

(** ** The figure of the core *)

Lemma fig_axis_attr_figure (ts : list (gmap string val1)) (l : gmap string val2)
    k (ax : gmap string val1) a :
  l !! k = Some (D2 ax) ->
  fig_axis_attr (UnionDict_figure ts l) k a = trace_attr ax a.
Proof.
  intros Hk. unfold fig_axis_attr, fig_layout, UnionDict_figure, get_axis.
  rewrite lookup_insert_ne by done. rewrite lookup_singleton_eq. simpl.
  by rewrite Hk.
Qed.

(** X18: the figure that [_build_fig] returns. Its traces are the traces
    that the drawable holds afterwards; each of them is on the x axis asked
    for, and on the y axis asked for or, in a drawable that overlays, on
    [y3]. The titles of its two axes are the [xtitle] and the [ytitle] of
    the drawable, and the tick labels of both axes are shown. A drawable that
    overlays keeps doing so. *)
Theorem build_fig_axes (xa ya : string) (self self' : AnnotatedDrawable)
    (f : gmap string figval) :
  _build_fig xa ya self = Ok (f, self') ->
  fig_data f = Ok (traces (ad_base self')) /\
  Forall (fun tr : gmap string val1 =>
            tr !! "xaxis" = Some (V1 (VStr xa)) /\
            (tr !! "yaxis" = Some (V1 (VStr ya)) \/
             _overlaying self' = true /\ tr !! "yaxis" = Some (V1 (VStr "y3"))))
    (traces (ad_base self')) /\
  fig_axis_attr f "xaxis" "title" = Ok (title_val (xtitle (ad_base self))) /\
  fig_axis_attr f "yaxis" "title" = Ok (title_val (ytitle (ad_base self))) /\
  fig_axis_attr f "xaxis" "showticklabels" = Ok (V1 (VBool true)) /\
  fig_axis_attr f "yaxis" "showticklabels" = Ok (V1 (VBool true)) /\
  (_overlaying self = true -> _overlaying self' = true).
Proof.
  unfold _build_fig. intros H.
  bind_inv H. destruct a as [f0 core1].
  bind_inv H. rename a into ts. bind_inv H. rename a into fl.
  bind_inv H. rename a into ts', E2 into Ets.
  bind_inv H. rename E2 into Ex. bind_inv H. rename E2 into Ey.
  bind_inv H. rename E2 into Eix. bind_inv H. rename E2 into Eiy.
  injection H as <- <-. simpl.
  destruct (_traces core1); [discriminate Ets|]. injection Ets as <-.
  apply axis_set_inv in Ex as (ax & Hax & ->).
  apply axis_set_inv in Ey as (ay & Hay & ->).
  apply axis_ior_inv in Eix as (ax' & Hax' & ->).
  apply axis_ior_inv in Eiy as (ay' & Hay' & ->).
  rewrite lookup_insert_ne in Hay by done.
  rewrite lookup_insert_ne, lookup_insert_eq in Hax' by done.
  rewrite lookup_insert_ne, lookup_insert_eq in Hay' by done.
  injection Hax' as <-. injection Hay' as <-.
  split; [done|]. split.
  { unfold traces. simpl. apply Forall_forall. intros tr' Hin.
    apply list_elem_of_fmap in Hin as (tr & -> & _).
    destruct (overlaying_set _), (_overlaying self),
      (bool_decide (is_Some (<["xaxis" := V1 (VStr xa)]> tr !! "yaxis")));
      simpl; rewrite ?lookup_insert_eq;
      (destruct (decide ("yaxis" = "xaxis")); [done|]);
      rewrite lookup_insert_ne, lookup_insert_eq by done; auto. }
  split; [|split; [|split; [|split]]].
  - erewrite fig_axis_attr_figure
      by (rewrite lookup_insert_ne by done; apply lookup_insert_eq).
    unfold trace_attr. rewrite union1_keeps by done. by rewrite lookup_insert_eq.
  - erewrite fig_axis_attr_figure by apply lookup_insert_eq.
    unfold trace_attr. rewrite union1_keeps by done. by rewrite lookup_insert_eq.
  - erewrite fig_axis_attr_figure
      by (rewrite lookup_insert_ne by done; apply lookup_insert_eq).
    unfold trace_attr. by erewrite union1_sets.
  - erewrite fig_axis_attr_figure by apply lookup_insert_eq.
    unfold trace_attr. by erewrite union1_sets.
  - intros ->. by destruct (overlaying_set _).
Qed.

Lemma build_fig_axes_witness :
  fig_data (figure_of example_no_tracks)
  = Ok (traces (ad_base (after_figure example_no_tracks))) /\
  Forall (fun tr : gmap string val1 =>
            tr !! "xaxis" = Some (V1 (VStr "x")) /\
            (tr !! "yaxis" = Some (V1 (VStr "y")) \/
             _overlaying (after_figure example_no_tracks) = true /\
             tr !! "yaxis" = Some (V1 (VStr "y3"))))
    (traces (ad_base (after_figure example_no_tracks))) /\
  fig_axis_attr (figure_of example_no_tracks) "xaxis" "title"
  = Ok (title_val (xtitle (ad_base example_no_tracks))) /\
  fig_axis_attr (figure_of example_no_tracks) "yaxis" "title"
  = Ok (title_val (ytitle (ad_base example_no_tracks))) /\
  fig_axis_attr (figure_of example_no_tracks) "xaxis" "showticklabels"
  = Ok (V1 (VBool true)) /\
  fig_axis_attr (figure_of example_no_tracks) "yaxis" "showticklabels"
  = Ok (V1 (VBool true)) /\
  (_overlaying example_no_tracks = true ->
   _overlaying (after_figure example_no_tracks) = true).
Proof.
  apply (build_fig_axes "x" "y" example_no_tracks (after_figure example_no_tracks)
           (figure_of example_no_tracks)).
  vm_compute. reflexivity.
Defined.

(** ** Removing a track *)

Lemma build_2x1_core self f self' :
  traces (ad_base self) = [] ->
  _build_2x1_fig self = Ok (f, self') ->
  exists f0 self1,
    _build_fig "x" "y" self = Ok (f0, self1) /\
    traces (ad_base self') = traces (ad_base self1).
Proof.
  unfold _build_2x1_fig. intros -> H.
  destruct (_build_fig "x" "y" self) as [[f0 self1]|]; [|done].
  simpl in H. do 5 bind_inv H.
  match goal with p : track_state |- _ => destruct p as [[? ?] ?] end.
  bind_inv H.
  injection H as <- <-. eauto.
Qed.

(** X19: the figure after [remove_track(left_track=True)], with or without
    the bottom track. When the [figure] property returns, the drawable has
    no left track and every trace of the figure, of the core and of the
    bottom track alike, is on the x axis [x]: the traces that [remove_track]
    emptied are built anew, by the [_build_fig] of the core and then by
    [_build_fig] with its default axes. *)
Theorem remove_left_track_x_axis (bottom : bool) (self self' : AnnotatedDrawable)
    (f : gmap string figval) :
  AnnotatedDrawable_figure (remove_track true bottom self) = Ok (f, self') ->
  left_track self' = None /\
  exists ts,
    fig_data f = Ok ts /\
    Forall (fun tr : gmap string val1 => tr !! "xaxis" = Some (V1 (VStr "x"))) ts.
Proof.
  set (s := remove_track true bottom self).
  assert (Hl : left_track s = None) by (unfold s, remove_track; by destruct bottom).
  assert (Ht : traces (ad_base s) = []) by (unfold s, remove_track; by destruct bottom).
  clearbody s. unfold AnnotatedDrawable_figure. rewrite Hl.
  destruct (bottom_track s) as [b|] eqn:Eb; intros H.
  - destruct (build_2x1_core _ _ _ Ht H) as (f0 & self1 & Hcore & Hsame).
    apply build_fig_axes in Hcore as (_ & Hcore & _).
    destruct (build_2x1_track_traces s self' f (traces b))
      as (ts & E & Hdata & _ & Hl' & Hlen & _ & _ & Hon); [by rewrite Eb|done|].
    split; [by rewrite Hl'|].
    exists (traces (ad_base self') ++ ts). split; [done|].
    apply Forall_app. split.
    + rewrite Hsame. eapply Forall_impl; [exact Hcore|]. by intros tr [? _].
    + apply Forall_lookup. intros j tr' Hj.
      destruct (traces b !! j) as [tr|] eqn:Hb.
      * destruct (Hon j tr Hb) as (tr'' & Htr'' & _ & Hx & _). congruence.
      * apply lookup_ge_None in Hb. apply lookup_lt_Some in Hj. lia.
  - pose proof (build_fig_tracks _ _ _ _ _ H) as [Hl' _].
    apply build_fig_axes in H as (Hdata & Hon & _).
    split; [by rewrite Hl'|].
    eexists. split; [exact Hdata|].
    eapply Forall_impl; [exact Hon|]. by intros tr [? _].
Qed.

Lemma remove_left_track_x_axis_witness :
  left_track (after_figure (remove_track true false example_built)) = None /\
  exists ts,
    fig_data (figure_of (remove_track true false example_built)) = Ok ts /\
    Forall (fun tr : gmap string val1 => tr !! "xaxis" = Some (V1 (VStr "x"))) ts.
Proof.
  apply (remove_left_track_x_axis false example_built
           (after_figure (remove_track true false example_built))
           (figure_of (remove_track true false example_built))).
  vm_compute. reflexivity.
Defined.

(** X20: removing tracks in two calls of [remove_track] leaves the drawable
    as one call does that asks for both removals. *)
Theorem remove_track_twice (left bottom left' bottom' : bool)
    (self : AnnotatedDrawable) :
  remove_track left bottom (remove_track left' bottom' self)
  = remove_track (left || left') (bottom || bottom') self.
Proof.
  destruct self as [[] ? ? ? [] ? ? ?].
  by destruct left, bottom, left', bottom'.
Qed.

(** [_build_fig] on a core that holds no trace and has no [_build_fig] of its
    own: the figure of the core has the placeholder for its data, and
    setting the axis of the placeholder raises. *)
Lemma build_fig_plain_core (xa ya : string) (self : AnnotatedDrawable) :
  core_build self = None -> traces (core self) = [] ->
  _build_fig xa ya self = Raise AttributeError.
Proof.
  intros Hb Ht. unfold _build_fig, figure. rewrite Hb.
  unfold traces in *. rewrite Ht.
  cbn [mbind result_bind Py.bind displayed traces].
  unfold axis_set.
  destruct (get_axis (d_layout (core self)) "xaxis") as [xa0|e] eqn:Ex.
  2: { unfold get_axis in Ex. by destruct (_ !! "xaxis") as [[|]|]; simplify_eq. }
  cbn [mbind result_bind Py.bind].
  destruct (get_axis (d_layout (core self)) "yaxis") as [ya0|e] eqn:Ey.
  2: { unfold get_axis in Ey. by destruct (_ !! "yaxis") as [[|]|]; simplify_eq. }
  cbn [mbind result_bind Py.bind].
  match goal with
  | |- context [get_axis ?l "yaxis"] =>
      destruct (get_axis l "yaxis") as [ya1|e] eqn:Ey'
  end.
  2: { unfold get_axis in Ey'.
       by destruct (_ !! "yaxis") as [[|]|]; simplify_eq. }
  cbn [mbind result_bind Py.bind]. simpl. by rewrite Ht.
Qed.

(** X21: [remove_track] on a drawable whose core is a plain [Drawable]. The
    call empties the traces of the drawable and of its core; a core without
    a [_build_fig] cannot supply them again, so whichever track is removed,
    the [figure] property then raises an [AttributeError] (of
    [trace.xaxis = xaxis] on the placeholder [{}]). *)
Theorem remove_track_plain_core (left bottom : bool) (self : AnnotatedDrawable) :
  core_build self = None -> left || bottom = true ->
  AnnotatedDrawable_figure (remove_track left bottom self) = Raise AttributeError.
Proof.
  intros Hb Hf.
  set (s := remove_track left bottom self).
  assert (Hcb : core_build s = None).
  { unfold s, remove_track. by destruct left, bottom. }
  assert (Hc : traces (core s) = []).
  { unfold s, remove_track. by destruct left, bottom. }
  assert (Ht : traces (ad_base s) = []).
  { unfold s, remove_track. by destruct left, bottom. }
  clearbody s.
  assert (Hraise : forall xa ya T (k : AnnotatedDrawable -> result T),
            (match traces (ad_base s) with
             | [] => snd <$> _build_fig xa ya s
             | _ => Ok s
             end ≫= k) = Raise AttributeError).
  { intros xa ya T k. rewrite Ht, (build_fig_plain_core xa ya s Hcb Hc). done. }
  unfold AnnotatedDrawable_figure.
  destruct (bottom_track s), (left_track s).
  - unfold _build_2x2_fig. apply Hraise.
  - unfold _build_2x1_fig. apply Hraise.
  - unfold _build_1x2_fig. apply Hraise.
  - by apply build_fig_plain_core.
Qed.

Lemma remove_track_plain_core_witness :
  AnnotatedDrawable_figure (remove_track true false example_annotated)
  = Raise AttributeError.
Proof.
  apply (remove_track_plain_core true false example_annotated); reflexivity.
Defined.
